(** * backtab: the ledger engine of [backtab/data_repo.py]

    A shallow embedding of the data model (monetary values, members,
    products, transactions), of the transaction builders, of the commit
    protocol around [git push], of the instance-ledger allocator and of
    the engine operations [apply_txn], [load_data] and [pull_changes],
    followed by the properties proved about them.

    Conventions of the embedding:
    - [decimal.Decimal] values are finite and exact: a coefficient and an
      exponent, with the arithmetic of the [decimal] module on them (the
      context precision of 28 digits is not reached, signed zeros and the
      special values are left out);
    - a Python exception is a value of [exn]; a call that may raise
      returns a [result];
    - the outside world (the git repository, the files of the data
      directory, the clock, the outcome of every subprocess) is a value of
      [World] threaded through the code; every external call is logged,
      and the world decides which calls fail;
    - the libraries that the module calls (beancount, yaml, decimal) are
      not modelled beyond what the module reads from their results: what
      they return is either computed as documented ([compute_residual],
      [Inventory.add_amount]) or taken as a parameter or an input
      ([infer_tolerances], the parser of decimal strings, the loaded
      ledger and the rows of the balance query);
    - the process-wide lock is not modelled: the code is followed as one
      thread runs it. *)

From Stdlib Require Import ZArith QArith Qpower Qabs Lqa Lia Ascii.
From stdpp Require Import base gmap strings list pretty.

Local Open Scope string_scope.
Local Open Scope Z_scope.
Set Warnings "-register-all".

(** ** Exceptions and results *)

(** The subclasses of [Exception] that the module raises or lets through. *)
Inductive exn : Type :=
| AssertionError (msg : string)
| AttributeError (obj attr : string)
| CalledProcessError (cmd : list string)
| FileExistsError (path : string)
| OSError (path : string)
| InvalidOperation
| KeyError (key : string)
| TypeError (msg : string)
| ValueError (msg arg : string)
| UpdateFailed (msg : string).

Inductive result (A : Type) : Type :=
| Ok (a : A)
| Raise (e : exn).
Arguments Ok {A} a.
Arguments Raise {A} e.

Definition is_Ok {A} (r : result A) : bool :=
  match r with Ok _ => true | Raise _ => false end.

(** An attribute of a Python object that [__init__] may leave unassigned:
    reading it while [Unset] raises [AttributeError]. *)
Inductive attr (A : Type) : Type :=
| Unset
| Assigned (a : A).
Arguments Unset {A}.
Arguments Assigned {A} a.

(** ** Monetary values: [decimal.Decimal] *)

Record Decimal : Type := D { coef : Z; expo : Z }.

(** [Decimal("0.00")] and beancount's [ZERO]. *)
Definition d0_00 : Decimal := D 0 (-2).
Definition ZERO : Decimal := D 0 0.

(** The rational number a decimal denotes. *)
Definition dval (d : Decimal) : Q := (inject_Z (coef d) * (10 # 1) ^ expo d)%Q.

Definition dadd (a b : Decimal) : Decimal :=
  let e := Z.min (expo a) (expo b) in
  D (coef a * 10 ^ (expo a - e) + coef b * 10 ^ (expo b - e)) e.

Definition dneg (a : Decimal) : Decimal := D (- coef a) (expo a).

Definition dsub (a b : Decimal) : Decimal := dadd a (dneg b).

Definition dmul (a b : Decimal) : Decimal :=
  D (coef a * coef b) (expo a + expo b).

Definition dabs (a : Decimal) : Decimal := D (Z.abs (coef a)) (expo a).

(** [a == ZERO] and [a > b], both by value. *)
Definition dis_zero (a : Decimal) : bool := coef a =? 0.

Definition dgtb (a b : Decimal) : bool :=
  let e := Z.min (expo a) (expo b) in
  coef b * 10 ^ (expo b - e) <? coef a * 10 ^ (expo a - e).

(** [D(n)] for a Python [int]. *)
Definition D_of_int (n : Z) : Decimal := D n 0.

(** Nearest integer to [n / m] for [0 < m], ties to the even neighbour. *)
Definition round_half_even (n m : Z) : Z :=
  let q := n / m in
  let r := n mod m in
  if 2 * r <? m then q
  else if m <? 2 * r then q + 1
  else if Z.even q then q else q + 1.

(** [d.quantize(Decimal('0.00'), ROUND_HALF_EVEN)]. *)
Definition quantize_0_00 (d : Decimal) : Decimal :=
  if -2 <=? expo d
  then D (coef d * 10 ^ (expo d + 2)) (-2)
  else D (round_half_even (coef d) (10 ^ (-2 - expo d))) (-2).

(** [str(d)]: the scientific string of the [decimal] module. *)
Definition digits (n : Z) : string := pretty (Z.abs n).

Fixpoint zeros (n : nat) : string :=
  match n with O => "" | S k => "0" +:+ zeros k end.

Definition Decimal_str (d : Decimal) : string :=
  let sign := if coef d <? 0 then "-" else "" in
  let int := digits (coef d) in
  let len := Z.of_nat (String.length int) in
  let leftdigits := expo d + len in
  let dotplace :=
    if (expo d <=? 0) && (-6 <? leftdigits) then leftdigits else 1 in
  let intpart :=
    if dotplace <=? 0 then "0"
    else if len <=? dotplace then int +:+ zeros (Z.to_nat (dotplace - len))
    else String.substring 0 (Z.to_nat dotplace) int in
  let fracpart :=
    if dotplace <=? 0 then "." +:+ zeros (Z.to_nat (- dotplace)) +:+ int
    else if len <=? dotplace then ""
    else "." +:+ String.substring (Z.to_nat dotplace)
                                  (Z.to_nat (len - dotplace)) int in
  let exp :=
    if leftdigits =? dotplace then ""
    else "E" +:+ (if 0 <=? leftdigits - dotplace then "+" else "")
             +:+ pretty (leftdigits - dotplace) in
  sign +:+ intpart +:+ fracpart +:+ exp.

(** ** Dates *)

Record date : Type := mkdate { year : Z; month : Z; day : Z }.

(** A [datetime.datetime]; [aware] tells that its tzinfo is
    [timezone.utc]. *)
Record datetime : Type := mkdatetime {
  dt_date : date;
  hour : Z; minute : Z; second : Z; microsecond : Z;
  aware : bool
}.

Definition pad (width : nat) (n : Z) : string :=
  let s := digits n in zeros (width - String.length s) +:+ s.

(** [str(dt)]: ISO format with a space as the separator. *)
Definition datetime_str (dt : datetime) : string :=
  pad 4 (year (dt_date dt)) +:+ "-" +:+ pad 2 (month (dt_date dt)) +:+ "-"
    +:+ pad 2 (day (dt_date dt)) +:+ " "
    +:+ pad 2 (hour dt) +:+ ":" +:+ pad 2 (minute dt) +:+ ":"
    +:+ pad 2 (second dt)
    +:+ (if microsecond dt =? 0 then "" else "." +:+ pad 6 (microsecond dt))
    +:+ (if aware dt then "+00:00" else "").

(** The [date] argument of the builders: a [datetime.datetime], or an
    object that is not one (a plain [datetime.date]). *)
Inductive date_arg : Type :=
| ADatetime (dt : datetime)
| ADate (d : date).

(** ** Values read from YAML and passed to constructors *)

(** A Python [float] is carried by the decimal expansion of its binary
    value, which is what [Decimal(float)] yields. *)
Inductive pyval : Type :=
| PNone
| PInt (n : Z)
| PFloat (exact : Decimal)
| PDecimal (d : Decimal)
| PStr (s : string)
| PList (items : list pyval)
| PDict (items : list (string * pyval)).

(** Insertion-ordered [dict] with string keys. *)
Fixpoint dict_get {V} (k : string) (d : list (string * V)) : option V :=
  match d with
  | [] => None
  | (k', v) :: d' => if String.eqb k k' then Some v else dict_get k d'
  end.

Fixpoint dict_set {V} (k : string) (v : V) (d : list (string * V))
  : list (string * V) :=
  match d with
  | [] => [(k, v)]
  | (k', v') :: d' =>
      if String.eqb k k' then (k, v) :: d' else (k', v') :: dict_set k v d'
  end.

(** [s.split(":")]. *)
Fixpoint split_colon (s : string) : list string :=
  match s with
  | EmptyString => [EmptyString]
  | String c s' =>
      if Ascii.eqb c ":"%char then EmptyString :: split_colon s'
      else match split_colon s' with
           | h :: t => String c h :: t
           | [] => [String c EmptyString]
           end
  end.

(** [os.path.join a b]. *)
Definition ends_with_slash (s : string) : bool :=
  match String.length s with
  | O => true
  | S n => String.eqb (String.substring n 1 s) "/"
  end.

Definition path_join (a b : string) : string :=
  if String.prefix "/" b then b
  else if ends_with_slash a then a +:+ b
  else a +:+ "/" +:+ b.

(** ** Members *)

Definition CASH_ACCT : string := "Assets:Cash:Bar".

(** beancount's [Inventory], restricted to positions held without cost:
    units per currency, no position with zero units. *)
Abbreviation Inventory := (gmap string Decimal).

(** What the [balance] attribute of a member holds: the [Decimal] of the
    constructor, or the inventory assigned by [load_data]. *)
Inductive balance_t : Type :=
| BalDecimal (d : Decimal)
| BalInventory (inv : Inventory).

Record Member : Type := mkMember {
  internal_name : string;
  display_name : string;
  account : string;
  balance : balance_t
}.

(** [Member.__init__] *)
Definition Member_init (acct : string) : result Member :=
  let account_parts := split_colon acct in
  if String.eqb acct "Assets:Cash:Bar" then
    Ok (mkMember "--cash--" "--CASH--" acct (BalDecimal d0_00))
  else if negb (length account_parts =? 4)%nat then
    Raise (ValueError "Member account should have four components" acct)
  else
    let last_part := List.last account_parts EmptyString in
    Ok (mkMember last_part last_part acct (BalDecimal d0_00)).

(** [Inventory.get_currency_units(currency).number] *)
Definition get_currency_units (inv : Inventory) (currency : string) : Decimal :=
  match inv !! currency with Some n => n | None => ZERO end.

(** [Inventory.add_amount(units)] for units held without cost. *)
Definition add_amount (inv : Inventory) (currency : string) (number : Decimal)
  : Inventory :=
  match inv !! currency with
  | Some pos =>
      let n := dadd pos number in
      if dis_zero n then delete currency inv else <[currency := n]> inv
  | None =>
      if dis_zero number then inv else <[currency := number]> inv
  end.

(** [Member.balance_eur] *)
Definition balance_eur (m : Member) : result Decimal :=
  match balance m with
  | BalDecimal _ => Raise (AttributeError "Decimal" "get_currency_units")
  | BalInventory inv => Ok (quantize_0_00 (get_currency_units inv "EUR"))
  end.

Definition with_display_name (m : Member) (n : string) : Member :=
  mkMember (internal_name m) n (account m) (balance m).

Definition with_balance (m : Member) (b : balance_t) : Member :=
  mkMember (internal_name m) (display_name m) (account m) b.

(** ** Products *)

Record Payback : Type := mkPayback {
  payback_account : string;
  payback_amount : Decimal
}.

Record Product : Type := mkProduct {
  name : string;
  localized_name : pyval;
  currency : string;
  price : Decimal;
  payback : attr (option Payback)
}.

Section Library.

(** [decimal.Decimal(s)] for a string [s]: the parser of the [decimal]
    module, [None] where it raises [InvalidOperation]. *)
Variable Decimal_of_str : string -> option Decimal.

(** [decimal.Decimal(v)] *)
Definition Decimal_of (v : pyval) : result Decimal :=
  match v with
  | PInt n => Ok (D_of_int n)
  | PFloat d => Ok d
  | PDecimal d => Ok d
  | PStr s =>
      match Decimal_of_str s with
      | Some d => Ok d
      | None => Raise InvalidOperation
      end
  | PNone | PList _ | PDict _ =>
      Raise (TypeError "conversion to Decimal is not supported")
  end.

(** [parse_price] *)
Definition parse_price (price_str : pyval) : result Decimal :=
  match Decimal_of price_str with
  | Ok d => Ok (quantize_0_00 d)
  | Raise e => Raise e
  end.

(** [definition[key]] *)
Definition subscript (definition : pyval) (key : string) : result pyval :=
  match definition with
  | PDict items =>
      match dict_get key items with
      | Some v => Ok v
      | None => Raise (KeyError key)
      end
  | _ => Raise (TypeError "indices must be integers")
  end.

Definition as_str (v : pyval) : string :=
  match v with PStr s => s | _ => "" end.

(** [Product.__init__]: the [payback] attribute is assigned only when the
    definition has a [payback] key. A definition is a mapping with string
    values for [name], [currency] and the payback account. *)
Definition Product_init (definition : pyval) : result Product :=
  match subscript definition "name" with
  | Raise e => Raise e
  | Ok nm =>
  let lname :=
    match subscript definition "localized_name" with
    | Ok v => v
    | Raise _ => PDict []
    end in
  match subscript definition "currency" with
  | Raise e => Raise e
  | Ok cur =>
  match subscript definition "price" with
  | Raise e => Raise e
  | Ok raw_price =>
  match parse_price raw_price with
  | Raise e => Raise e
  | Ok pr =>
  match subscript definition "payback" with
  | Raise _ => Ok (mkProduct (as_str nm) lname (as_str cur) pr Unset)
  | Ok pb =>
  match subscript pb "account" with
  | Raise e => Raise e
  | Ok pacct =>
  match subscript pb "amount" with
  | Raise e => Raise e
  | Ok raw_amount =>
  match parse_price raw_amount with
  | Raise e => Raise e
  | Ok amt =>
      Ok (mkProduct (as_str nm) lname (as_str cur) pr
            (Assigned (Some (mkPayback (as_str pacct) amt))))
  end end end end end end end end.

End Library.

(** ** beancount's data: amounts, postings, transactions, directives *)

Module bcdata.

Record Amount : Type := mkAmount { number : Decimal; currency : string }.

Record Posting : Type := mkPosting { account : string; units : Amount }.

Record Transaction : Type := mkTransaction {
  meta : list (string * string);
  date : date;
  flag : string;
  payee : option string;
  narration : string;
  tags : list string;
  links : list string;
  postings : list Posting
}.

(** The entries of a loaded ledger: [Open] directives with their metadata,
    and everything else. *)
Inductive Directive : Type :=
| Open (account : string) (meta : list (string * string))
| OtherDirective.

(** [create_simple_posting(entry, account, number, currency)] appends a
    posting without cost or price to the entry. *)
Definition create_simple_posting (entry : Transaction) (account : string)
    (number : Decimal) (currency : string) : Transaction :=
  mkTransaction (meta entry) (date entry) (flag entry) (payee entry)
    (narration entry) (tags entry) (links entry)
    (postings entry ++ [mkPosting account (mkAmount number currency)]).

End bcdata.

(** [compute_residual]: the inventory of the postings' weights, which for
    postings without cost or price are their units. *)
Definition compute_residual (postings : list bcdata.Posting) : Inventory :=
  foldl (fun inv p =>
           add_amount inv (bcdata.currency (bcdata.units p))
                          (bcdata.number (bcdata.units p)))
        ∅ postings.

(** [Inventory.is_small(tolerances)]: no position exceeds, in absolute
    value, the tolerance of its currency ([ZERO] when it has none). *)
Definition is_small (inv : Inventory) (tolerances : gmap string Decimal) : bool :=
  bool_decide (map_Forall (fun cur n =>
     dgtb (dabs n) (match tolerances !! cur with Some t => t | None => ZERO end)
     = false) inv).

(** ** The outside world *)

(** What the engine writes to a ledger file. *)
Inductive Text : Type :=
| Line (s : string)
| IncludeLine (trial_name : string)
| PrintedEntry (entry : bcdata.Transaction).

(** External calls: [subprocess.run] and [subprocess.check_output] of a
    command line, [open(path, "xt")], [open(path, "at")], a write to an
    open file, and [time.sleep]. *)
Inductive Cmd : Type :=
| Run (args : list string)
| OpenX (path : string)
| OpenA (path : string)
| WriteTo (path : string) (text : Text)
| Sleep (seconds : Z).

(** A local modification of the working tree or of the index that is not
    part of the head revision. *)
Inductive Change : Type :=
| Created (path : string)
| Appended (path : string) (text : Text)
| Staged (path : string).

(** The world outside the process:
    - [DATA_DIR] is [SERVER_CONFIG.DATA_DIR], the root of the repository,
      and [hostname] is what [socket.gethostname()] returns;
    - [clock] is the sequence of the readings of the clock, of which
      [ticks] were taken;
    - [HEAD] is the head revision of the local repository, as
      [git rev-parse HEAD] prints it;
    - [present] are the paths that exist in the data directory, the files
      created by a local change apart;
    - [local_changes] is what was created, written and staged since the
      head revision;
    - [fails n] tells whether the [n]-th external call fails: the remote,
      the network and the file system decide;
    - [calls] are the external calls made so far, the oldest first, and
      [stdout] is what was printed. *)
Record World : Type := mkWorld {
  DATA_DIR : string;
  hostname : string;
  clock : nat -> datetime;
  ticks : nat;
  HEAD : string;
  present : list string;
  local_changes : list Change;
  fails : nat -> bool;
  calls : list Cmd;
  stdout : list Text
}.

Definition w_log (c : Cmd) (w : World) : World :=
  mkWorld (DATA_DIR w) (hostname w) (clock w) (ticks w) (HEAD w) (present w)
    (local_changes w) (fails w) (calls w ++ [c]) (stdout w).

Definition w_tick (w : World) : World :=
  mkWorld (DATA_DIR w) (hostname w) (clock w) (S (ticks w)) (HEAD w)
    (present w) (local_changes w) (fails w) (calls w) (stdout w).

Definition w_change (ch : Change) (w : World) : World :=
  mkWorld (DATA_DIR w) (hostname w) (clock w) (ticks w) (HEAD w) (present w)
    (local_changes w ++ [ch]) (fails w) (calls w) (stdout w).

Definition w_reset (rev : string) (w : World) : World :=
  mkWorld (DATA_DIR w) (hostname w) (clock w) (ticks w) rev (present w)
    [] (fails w) (calls w) (stdout w).

Definition w_print (line : Text) (w : World) : World :=
  mkWorld (DATA_DIR w) (hostname w) (clock w) (ticks w) (HEAD w) (present w)
    (local_changes w) (fails w) (calls w) (stdout w ++ [line]).

Definition path_exists (w : World) (p : string) : bool :=
  existsb (String.eqb p) (present w)
  || existsb (fun ch => match ch with
                        | Created q => String.eqb p q
                        | _ => false
                        end) (local_changes w).

(** The exception of a call that fails: [check=True] turns a non-zero
    exit status into [CalledProcessError]; file operations raise [OSError]
    ([time.sleep] does not fail, see [perform]). *)
Definition failure_of (c : Cmd) : exn :=
  match c with
  | Run args => CalledProcessError args
  | OpenX p | OpenA p | WriteTo p _ => OSError p
  | Sleep _ => OSError ""
  end.

(** What a call that succeeds does to the world, and what it prints:
    [git add] stages a file; [git reset --hard rev] moves the head to
    [rev] and drops every local change; [git rev-parse HEAD] and
    [git push] leave the local repository as it is; opening a file for
    exclusive creation, or for appending when it does not exist, creates
    it; a write appends to the file. *)
Definition effect (c : Cmd) (w : World) : World :=
  match c with
  | Run ["git"; "add"; filename] => w_change (Staged filename) w
  | Run ["git"; "reset"; "--hard"; rev] => w_reset rev w
  | Run _ => w
  | OpenX p => w_change (Created p) w
  | OpenA p => if path_exists w p then w else w_change (Created p) w
  | WriteTo p t => w_change (Appended p t) w
  | Sleep _ => w
  end.

Definition output (c : Cmd) (w : World) : string :=
  match c with
  | Run ["git"; "rev-parse"; "HEAD"] => HEAD w
  | _ => ""
  end.

(** One external call: logged; [time.sleep] returns; exclusive creation of
    a path that exists raises [FileExistsError]; otherwise the world
    decides whether the call fails, and a call that fails changes nothing. *)
Definition outcome (c : Cmd) (w : World) : result string * World :=
  if fails w (length (calls w))
  then (Raise (failure_of c), w_log c w)
  else (Ok (output c w), effect c (w_log c w)).

Definition perform (c : Cmd) (w : World) : result string * World :=
  match c with
  | Sleep _ => (Ok "", w_log c w)
  | OpenX p =>
      if path_exists w p then (Raise (FileExistsError p), w_log c w)
      else outcome c w
  | _ => outcome c w
  end.

(** ** The engine and its state *)

Record RepoData : Type := mkRepoData {
  accounts : attr (gmap string nat);
  accounts_raw : attr (gmap string nat);
  products : attr (gmap string Product);
  instance_ledger_name : option string;
  instance_ledger : option string
}.

(** [RepoData.__init__] *)
Definition RepoData_init : RepoData := mkRepoData Unset Unset Unset None None.

(** The world, the engine object, and the [Member] objects by identity:
    [accounts] and [accounts_raw] hold references into [heap], so that an
    update through one dictionary is seen through the other. An open file
    is known by its path. *)
Record State : Type := mkState {
  world : World;
  self : RepoData;
  heap : list Member
}.

Definition set_world (w : World) (s : State) : State :=
  mkState w (self s) (heap s).
Definition set_self (r : RepoData) (s : State) : State :=
  mkState (world s) r (heap s).
Definition set_heap (h : list Member) (s : State) : State :=
  mkState (world s) (self s) h.

(** Code that reads and writes the state and may raise. *)
Definition M (A : Type) : Type := State -> result A * State.

Definition ret {A} (a : A) : M A := fun s => (Ok a, s).
Definition raise {A} (e : exn) : M A := fun s => (Raise e, s).
Definition bind {A B} (m : M A) (k : A -> M B) : M B :=
  fun s => match m s with
           | (Ok a, s1) => k a s1
           | (Raise e, s1) => (Raise e, s1)
           end.

Notation "'let*' x ':=' m 'in' k" := (bind m (fun x => k))
  (at level 10, x pattern, m at level 100, k at level 200).
Notation "m ';;' k" := (bind m (fun _ => k))
  (at level 100, k at level 200, right associativity).

(** [try: body / except Exception as e: handler e] *)
Definition try_except {A} (body : M A) (handler : exn -> M A) : M A :=
  fun s => match body s with
           | (Ok a, s1) => (Ok a, s1)
           | (Raise e, s1) => handler e s1
           end.

Definition lift {A} (r : result A) : M A := fun s => (r, s).

Definition call (c : Cmd) : M string :=
  fun s => let '(r, w) := perform c (world s) in (r, set_world w s).

Definition print_text (t : Text) : M unit :=
  fun s => (Ok tt, set_world (w_print t (world s)) s).

Definition print (line : string) : M unit := print_text (Line line).

(** [datetime.datetime.utcnow()] and [datetime.datetime.now(timezone.utc)]:
    each reads the clock once. *)
Definition utcnow : M datetime :=
  fun s => let w := world s in (Ok (clock w (ticks w)), set_world (w_tick w) s).

Definition as_aware (dt : datetime) : datetime :=
  mkdatetime (dt_date dt) (hour dt) (minute dt) (second dt) (microsecond dt) true.

Definition now_utc : M datetime :=
  let* dt := utcnow in ret (as_aware dt).

Definition get_self : M RepoData := fun s => (Ok (self s), s).
Definition put_self (r : RepoData) : M unit := fun s => (Ok tt, set_self r s).
Definition get_world : M World := fun s => (Ok (world s), s).

(** [subprocess.run(args, cwd=DATA_DIR, check=True)] and
    [subprocess.check_output(args, cwd=DATA_DIR)]. *)
Definition subprocess_run (args : list string) : M unit :=
  call (Run args);; ret tt.
Definition subprocess_check_output (args : list string) : M string :=
  call (Run args).

(** ** Transaction builders *)

(** [Transaction.__init__]: the object is known by its [txn]. *)
Definition Transaction_init (title : option string) (date : option date_arg)
    (meta : option (list (string * string))) : M bcdata.Transaction :=
  let meta := match meta with None => [] | Some m => m end in
  let* date :=
    match date with
    | None => let* now := utcnow in ret (ADatetime now)
    | Some d => ret d
    end in
  let* stamped :=
    match date with
    | ADatetime dt =>
        let* now := utcnow in
        ret (dict_set "timestamp" (datetime_str now) meta, dt_date dt)
    | ADate d => ret (meta, d)
    end in
  let '(meta, date) := stamped in
  match title with
  | None => raise (TypeError "Title must be provided for a transaction")
  | Some title =>
      ret (bcdata.mkTransaction meta date "txn" None title [] [] [])
  end.

(** [paybacks[account] += amount] on the [defaultdict] whose default is
    [Decimal("0.00")]. *)
Definition paybacks_add (account : string) (amount : Decimal)
    (paybacks : list (string * Decimal)) : list (string * Decimal) :=
  dict_set account
    (dadd (match dict_get account paybacks with Some a => a | None => d0_00 end)
          amount) paybacks.

(** The first loop of [BuyTxn.__init__], over the products bought. *)
Fixpoint BuyTxn_items (buyer : Member) (products : list (Product * Z))
    (txn : bcdata.Transaction) (charge : Decimal)
    (paybacks : list (string * Decimal))
  : result (bcdata.Transaction * Decimal * list (string * Decimal)) :=
  match products with
  | [] => Ok (txn, charge, paybacks)
  | (product, qty) :: rest =>
      let charge := dadd charge (dmul (price product) (D_of_int qty)) in
      match payback product with
      | Unset => Raise (AttributeError "Product" "payback")
      | Assigned pb =>
          let paybacks :=
            match pb with
            | Some pb =>
                paybacks_add (payback_account pb)
                  (dmul (payback_amount pb) (D_of_int qty)) paybacks
            | None => paybacks
            end in
          let txn := bcdata.create_simple_posting txn "Assets:Inventory:Bar"
                       (D_of_int (- qty)) (currency product) in
          let txn := bcdata.create_simple_posting txn (account buyer)
                       (D_of_int qty) (currency product) in
          BuyTxn_items buyer rest txn charge paybacks
      end
  end.

(** The second loop, over [paybacks.items()]. *)
Fixpoint BuyTxn_paybacks (paybacks : list (string * Decimal))
    (txn : bcdata.Transaction) (charge : Decimal)
  : bcdata.Transaction * Decimal :=
  match paybacks with
  | [] => (txn, charge)
  | (payee, amt) :: rest =>
      let txn := bcdata.create_simple_posting txn payee (dneg amt) "EUR" in
      BuyTxn_paybacks rest txn (dsub charge amt)
  end.

(** [BuyTxn.__init__] (the [buyer] attribute that the object keeps is not
    part of its [txn]). *)
Definition BuyTxn (buyer : Member) (products : list (Product * Z))
    (date : option date_arg) : M bcdata.Transaction :=
  let* txn := Transaction_init
                (Some (display_name buyer +:+ " bought some stuff")) date
                (Some [("type", "purchase")]) in
  let charge := d0_00 in
  let paybacks := [] in
  let* bought := lift (BuyTxn_items buyer products txn charge paybacks) in
  let '(txn, charge, paybacks) := bought in
  let txn := bcdata.create_simple_posting txn (account buyer) charge "EUR" in
  let '(txn, charge) := BuyTxn_paybacks paybacks txn charge in
  ret (bcdata.create_simple_posting txn "Income:Bar" (dneg charge) "EUR").

(** [TransferTxn.__init__] *)
Definition TransferTxn (payer payee : Member) (amount : Decimal)
    (date : option date_arg) : M bcdata.Transaction :=
  let* txn := Transaction_init
                (Some (display_name payer +:+ " gave " +:+ display_name payee
                         +:+ " a gift of €" +:+ Decimal_str amount))
                date (Some [("type", "transfer")]) in
  let txn := bcdata.create_simple_posting txn (account payer)
               (dneg amount) "EUR" in
  ret (bcdata.create_simple_posting txn (account payee) amount "EUR").

(** [DepositTxn.__init__] *)
Definition DepositTxn (member : Member) (amount : Decimal)
    (date : option date_arg) : M bcdata.Transaction :=
  let* txn := Transaction_init
                (Some (display_name member +:+ " deposited €"
                         +:+ Decimal_str amount))
                date (Some [("type", "deposit")]) in
  let txn := bcdata.create_simple_posting txn (account member)
               (dneg amount) "EUR" in
  ret (bcdata.create_simple_posting txn CASH_ACCT amount "EUR").

(** ** The commit protocol *)

(** [RepoData.add_file] *)
Definition add_file (filename : string) : M unit :=
  subprocess_run ["git"; "add"; filename].

(** [RepoData.git_transaction], around the block of a [with] statement.
    A block left without an exception, whether it runs to its end or
    leaves by [continue], resumes the generator after its [yield]. *)
Definition git_transaction {A} (block : M A) : M A :=
  let* head := subprocess_check_output ["git"; "rev-parse"; "HEAD"] in
  try_except
    (let* v := block in
     subprocess_run ["git"; "push"];;
     ret v)
    (fun e =>
       subprocess_run ["git"; "reset"; "--hard"; head];;
       raise e).

(** ** The instance-ledger allocator *)

Definition set_instance_ledger_name (n : option string) : M unit :=
  let* r := get_self in
  put_self (mkRepoData (accounts r) (accounts_raw r) (products r) n
              (instance_ledger r)).

Definition set_instance_ledger (h : option string) : M unit :=
  let* r := get_self in
  put_self (mkRepoData (accounts r) (accounts_raw r) (products r)
              (instance_ledger_name r) h).

(** [try: body / except FileExistsError: handler]: any other exception
    passes through. *)
Definition try_except_FileExistsError {A} (body : M A) (handler : M A) : M A :=
  try_except body
    (fun e => match e with
              | FileExistsError _ => handler
              | _ => raise e
              end).

(** How the block of the [with] statement is left when nothing is raised. *)
Inductive leave : Type := Continue | FallThrough.

(** One turn of the [while] loop of [open_instance_ledger]. *)
Definition open_instance_ledger_turn : M leave :=
  let* w := get_world in
  let* now := now_utc in
  let trial_name := hostname w +:+ "_" +:+ datetime_str now +:+ ".beancount" in
  git_transaction
    (let path := path_join (path_join (DATA_DIR w) "ledger") trial_name in
     let* created :=
       try_except_FileExistsError
         (call (OpenX path);;
          print ("Got instance ledger " +:+ path);;
          set_instance_ledger_name (Some path);;
          ret FallThrough)
         (call (Sleep 1);;
          ret Continue) in
     match created with
     | Continue => ret Continue
     | FallThrough =>
         let dynamic :=
           path_join (path_join (DATA_DIR w) "ledger") "dynamic.beancount" in
         call (OpenA dynamic);;
         call (WriteTo dynamic (IncludeLine trial_name));;
         add_file (path_join "ledger" trial_name);;
         add_file (path_join "ledger" "dynamic.beancount");;
         ret FallThrough
     end).

(** [while self.instance_ledger_name is None: ...], for at most [fuel]
    turns; [None] when the turns run out. *)
Fixpoint open_instance_ledger_loop (fuel : nat) (s : State)
  : option (result unit * State) :=
  match instance_ledger_name (self s) with
  | Some _ => Some (Ok tt, s)
  | None =>
      match fuel with
      | O => None
      | S fuel' =>
          match open_instance_ledger_turn s with
          | (Ok _, s1) => open_instance_ledger_loop fuel' s1
          | (Raise e, s1) => Some (Raise e, s1)
          end
      end
  end.

(** [RepoData.open_instance_ledger] *)
Definition open_instance_ledger (fuel : nat) (s : State)
  : option (result string * State) :=
  match instance_ledger (self s) with
  | Some h => Some (Ok h, s)
  | None =>
      match open_instance_ledger_loop fuel s with
      | None => None
      | Some (Raise e, s1) => Some (Raise e, s1)
      | Some (Ok _, s1) =>
          Some (match instance_ledger_name (self s1) with
                | None => raise (TypeError "expected str, not NoneType")
                | Some path =>
                    call (OpenA path);;
                    set_instance_ledger (Some path);;
                    ret path
                end s1)
      end
  end.

(** [RepoData.close_instance_ledger] *)
Definition close_instance_ledger : M unit :=
  let* r := get_self in
  match instance_ledger r with
  | Some _ => set_instance_ledger None
  | None => ret tt
  end.

(** ** Applying a transaction *)

(** [self.accounts_raw], read. *)
Definition read_accounts_raw : M (gmap string nat) :=
  let* r := get_self in
  match accounts_raw r with
  | Unset => raise (AttributeError "RepoData" "accounts_raw")
  | Assigned d => ret d
  end.

(** [member.balance.add_amount(posting.units)] on the member at [l] (a
    reference of a dictionary always leads to an object: the [None] case
    is there for totality). *)
Definition member_add_amount (l : nat) (u : bcdata.Amount) : M unit :=
  fun s =>
    match heap s !! l with
    | None => (Ok tt, s)
    | Some m =>
        match balance m with
        | BalDecimal _ => (Raise (AttributeError "Decimal" "add_amount"), s)
        | BalInventory inv =>
            (Ok tt,
             set_heap
               (<[l := with_balance m
                         (BalInventory
                            (add_amount inv (bcdata.currency u)
                               (bcdata.number u)))]> (heap s)) s)
        end
    end.

(** The loop that folds the postings into the live balances. *)
Fixpoint apply_postings (postings : list bcdata.Posting) : M unit :=
  match postings with
  | [] => ret tt
  | posting :: rest =>
      let* raw := read_accounts_raw in
      match raw !! bcdata.account posting with
      | Some l => member_add_amount l (bcdata.units posting)
      | None => ret tt
      end;;
      apply_postings rest
  end.

(** [beancount.parser.printer.print_entry(entry, file=f)]: to the file, or
    to the standard output when [f] is [None]. *)
Definition print_entry (entry : bcdata.Transaction) (f : option string)
  : M unit :=
  match f with
  | Some path => call (WriteTo path (PrintedEntry entry));; ret tt
  | None => print_text (PrintedEntry entry)
  end.

Section Engine.

(** [bcinterp.infer_tolerances(postings, {})] of beancount. *)
Variable infer_tolerances : list bcdata.Posting -> gmap string Decimal.

(** The block of [apply_txn] that runs under the commit protocol. *)
Definition append_entry (bc_txn : bcdata.Transaction) : M unit :=
  let* r := get_self in
  print_entry bc_txn (instance_ledger r);;
  match instance_ledger_name r with
  | Some filename => add_file filename
  | None => raise (TypeError "expected str, not NoneType")
  end.

(** [RepoData.apply_txn] *)
Definition apply_txn (txn : bcdata.Transaction) : M unit :=
  let bc_txn := txn in
  let residual := compute_residual (bcdata.postings bc_txn) in
  let tolerances := infer_tolerances (bcdata.postings bc_txn) in
  if negb (is_small residual tolerances)
  then raise (AssertionError "Imbalanced transaction generated")
  else
    git_transaction (append_entry bc_txn);;
    apply_postings (bcdata.postings bc_txn).

End Engine.

(** ** Loading the directory *)

(** What [load_data] reads: the parsed [static/products.yml] (or the
    exception of [open] or [yaml.load]), the entries and the printed
    errors of [beancount.loader.load_file], and the rows of the balance
    query run on those entries. *)
Record Sources : Type := mkSources {
  products_yml : result pyval;
  ledger_data : list bcdata.Directive;
  errors : list string;
  query_rows : list (string * Inventory)
}.

(** [io.StringIO(initial)] after [written] was written from its start. *)
Definition StringIO_getvalue (initial written : string) : string :=
  written +:+ String.substring (String.length written)
                (String.length initial - String.length written) initial.

(** A new object on the heap. *)
Definition alloc (m : Member) : M nat :=
  fun s => (Ok (length (heap s)), set_heap (heap s ++ [m]) s).

(** The loop of [load_data] over the entries of the ledger. *)
Fixpoint load_accounts (entries : list bcdata.Directive)
    (balances : gmap string Inventory) (accounts accounts_raw : gmap string nat)
  : M (gmap string nat * gmap string nat) :=
  match entries with
  | [] => ret (accounts, accounts_raw)
  | bcdata.OtherDirective :: rest =>
      load_accounts rest balances accounts accounts_raw
  | bcdata.Open entry_account entry_meta :: rest =>
      match balances !! entry_account with
      | None =>
          print ("Didn't load " +:+ entry_account +:+ " as no balance found");;
          load_accounts rest balances accounts accounts_raw
      | Some bal =>
          let* acct := lift (Member_init entry_account) in
          let acct :=
            match dict_get "display_name" entry_meta with
            | Some n => with_display_name acct n
            | None => acct
            end in
          let acct := with_balance acct (BalInventory bal) in
          let* l := alloc acct in
          load_accounts rest balances
            (<[internal_name acct := l]> accounts)
            (<[account acct := l]> accounts_raw)
      end
  end.

Section Loading.

Variable Decimal_of_str : string -> option Decimal.

(** The loop of [load_data] over the raw products. *)
Fixpoint load_products (raw_products : list pyval)
    (products : gmap string Product) : result (gmap string Product) :=
  match raw_products with
  | [] => Ok products
  | raw_product :: rest =>
      match Product_init Decimal_of_str raw_product with
      | Raise e => Raise e
      | Ok product =>
          match products !! name product with
          | Some _ => Raise (UpdateFailed ("Duplicate product " +:+ name product))
          | None => load_products rest (<[name product := product]> products)
          end
      end
  end.

(** [RepoData.load_data] *)
Definition load_data (src : Sources) : M unit :=
  let* raw_products := lift (products_yml src) in
  match raw_products with
  | PList raw_products =>
      let* products := lift (load_products raw_products ∅) in
      match errors src with
      | _ :: _ =>
          raise (UpdateFailed
                   (StringIO_getvalue "Failed to load ledger
" (String.concat "" (errors src))))
      | [] =>
          let balances :=
            foldl (fun d row => <[row.1 := row.2]> d) ∅ (query_rows src) in
          let* dicts := load_accounts (ledger_data src) balances ∅ ∅ in
          let '(accounts, accounts_raw) := dicts in
          let* r := get_self in
          put_self (mkRepoData (Assigned accounts) (Assigned accounts_raw)
                      (Assigned products) (instance_ledger_name r)
                      (instance_ledger r))
      end
  | _ => raise (TypeError "Products should be a list")
  end.

End Loading.

(** ** Pulling *)

(** The head revision and the paths of the data directory. *)
Record Tree : Type := mkTree {
  tree_HEAD : string;
  tree_present : list string
}.

(** What [pull_changes] meets outside the process: what a pull that
    fails writes to its standard error; the data directory after a pull
    that succeeds, and what [load_data] then reads from it; the data
    directory after [git checkout @{-1}] has run (in the working directory
    of the process: this call is made without [cwd]). *)
Record Upstream : Type := mkUpstream {
  pull_stderr : string;
  merged : Tree;
  reloaded : Sources;
  checked_out : Tree
}.

(** The world once the data directory holds the tree [t]: a pull and a
    checkout move the head revision and change the files; the calls made
    so far, the local changes and the clock are not theirs to change. *)
Definition w_tree (t : Tree) (w : World) : World :=
  mkWorld (DATA_DIR w) (hostname w) (clock w) (ticks w) (tree_HEAD t)
    (tree_present t) (local_changes w) (fails w) (calls w) (stdout w).

(** What a pull or a checkout that succeeded has done to the data
    directory. *)
Definition becomes (t : Tree) : M unit :=
  fun s => (Ok tt, set_world (w_tree t (world s)) s).

(** The command line of [subprocess.run(command, shell=True)]. *)
Definition shell (command : string) : list string :=
  ["/bin/sh"; "-c"; command].

(** The command of [pull_changes]. *)
Definition git_pull : string :=
  "git pull --no-edit || ( git merge --abort; false; )".

Section Pulling.

Variable Decimal_of_str : string -> option Decimal.

(** [RepoData.pull_changes], up to the reload. *)
Definition pull_and_reload (up : Upstream) : M unit :=
  let* r := get_self in
  match instance_ledger r with
  | Some _ => set_instance_ledger None
  | None => ret tt
  end;;
  try_except
    (subprocess_run (shell git_pull);;
     becomes (merged up))
    (fun e => match e with
              | CalledProcessError _ => raise (UpdateFailed (pull_stderr up))
              | _ => raise e
              end);;
  try_except
    (load_data Decimal_of_str (reloaded up))
    (fun e => match e with
              | UpdateFailed _ => raise e
              | _ =>
                  subprocess_run ["git"; "checkout"; "@{-1}"];;
                  becomes (checked_out up);;
                  raise (UpdateFailed "Failed to reload data")
              end).

(** [RepoData.pull_changes]; [None] when the turns of the allocator run
    out. *)
Definition pull_changes (up : Upstream) (fuel : nat) (s : State)
  : option (result unit * State) :=
  match pull_and_reload up s with
  | (Raise e, s1) => Some (Raise e, s1)
  | (Ok _, s1) =>
      match open_instance_ledger fuel s1 with
      | None => None
      | Some (Raise e, s2) => Some (Raise e, s2)
      | Some (Ok _, s2) => Some (Ok tt, s2)
      end
  end.

End Pulling.

(** * Vocabulary of the statements *)

(** ** Sums of postings *)

(** What a posting contributes to the sum of currency [c]. *)
Definition posting_in (c : string) (p : bcdata.Posting) : Q :=
  if decide (bcdata.currency (bcdata.units p) = c)
  then dval (bcdata.number (bcdata.units p)) else 0%Q.





Definition posting (acct : string) (n : Decimal) (cur : string)
  : bcdata.Posting :=
  bcdata.mkPosting acct (bcdata.mkAmount n cur).


(** ** Builders *)

(** [built_on date s txn]: one of the three builders, called with [date]
    in state [s], returned [txn]. *)
Inductive built_on (date : option date_arg) (s : State)
  : bcdata.Transaction -> Prop :=
| built_buy buyer products txn s' :
    BuyTxn buyer products date s = (Ok txn, s') -> built_on date s txn
| built_transfer payer payee amount txn s' :
    TransferTxn payer payee amount date s = (Ok txn, s') -> built_on date s txn
| built_deposit member amount txn s' :
    DepositTxn member amount date s = (Ok txn, s') -> built_on date s txn.

(** The [k]-th clock reading from state [s] on. *)
Definition reading (s : State) (k : nat) : datetime :=
  clock (world s) (ticks (world s) + k)%nat.

(** The date and the [timestamp] metadata of a transaction built in state
    [s] with the argument [date]. *)
Definition stamped (date : option date_arg) (s : State)
    (t : bcdata.Transaction) : Prop :=
  match date with
  | Some (ADatetime dt) =>
      bcdata.date t = dt_date dt
      /\ dict_get "timestamp" (bcdata.meta t)
         = Some (datetime_str (reading s 0))
  | Some (ADate d) =>
      bcdata.date t = d /\ dict_get "timestamp" (bcdata.meta t) = None
  | None =>
      bcdata.date t = dt_date (reading s 0)
      /\ dict_get "timestamp" (bcdata.meta t)
         = Some (datetime_str (reading s 1))
  end.

(** ** External calls *)

(** Whether the world lets the next external call fail. *)
Definition next_call_fails (s : State) : bool :=
  fails (world s) (length (calls (world s))).

(** The state after a call that succeeded, and after one that failed. *)
Definition after_call (c : Cmd) (s : State) : State :=
  set_world (effect c (w_log c (world s))) s.
Definition after_failed_call (c : Cmd) (s : State) : State :=
  set_world (w_log c (world s)) s.

Definition git_rev_parse : Cmd := Run ["git"; "rev-parse"; "HEAD"].
Definition git_push : Cmd := Run ["git"; "push"].
Definition git_reset (head : string) : Cmd :=
  Run ["git"; "reset"; "--hard"; head].

(** The [except] clause of [git_transaction]. *)
Definition rollback {A} (head : string) (e : exn) (s : State)
  : result A * State :=
  match subprocess_run ["git"; "reset"; "--hard"; head] s with
  | (Ok _, s') => (Raise e, s')
  | (Raise e', s') => (Raise e', s')
  end.


(** A computation that touches nothing but the world. *)
Definition world_only {A} (m : M A) : Prop :=
  forall s r s', m s = (r, s') -> self s' = self s /\ heap s' = heap s.

(** ** The allocator *)

Definition is_collision {A} (r : result A) : bool :=
  match r with Raise (FileExistsError _) => true | _ => false end.

Definition no_collision {A} (m : M A) : Prop :=
  forall s r s', m s = (r, s') -> is_collision r = false.

(** The candidate of the turn that starts in world [w]. *)
Definition trial_name (w : World) : string :=
  hostname w +:+ "_" +:+ datetime_str (as_aware (clock w (ticks w)))
    +:+ ".beancount".

Definition trial_path (w : World) : string :=
  path_join (path_join (DATA_DIR w) "ledger") (trial_name w).

(** ** The directory *)


Definition entry_ok (h : list Member) (a : string) (l : nat) : bool :=
  match h !! l with
  | Some m =>
      String.eqb (account m) a
      && match balance m with BalInventory _ => true | BalDecimal _ => false end
  | None => false
  end.

(** Every entry of [accounts_raw] refers to a member of that account whose
    balance is an inventory. *)
Definition directory_ok (raw : gmap string nat) (h : list Member) : Prop :=
  map_Forall (fun a l => entry_ok h a l = true) raw.

(** The dictionary of the balance query: a later row replaces an earlier
    one of the same account. *)
Definition balances_of (rows : list (string * Inventory))
  : gmap string Inventory :=
  foldl (fun d row => <[row.1 := row.2]> d) ∅ rows.


Section CatalogVocabulary.

Variable Decimal_of_str : string -> option Decimal.



End CatalogVocabulary.

(** ** Concrete worlds and engines *)

Definition example_clock (n : nat) : datetime :=
  mkdatetime (mkdate 2021 6 15) 12 30 (Z.of_nat n) 0 false.

Definition example_world (fails : nat -> bool) (present : list string)
  : World :=
  mkWorld "/srv/bartab" "tap" example_clock 0 "4f2a" present [] fails [] [].

Definition alice : Member :=
  mkMember "alice" "alice" "Liabilities:Bar:Members:alice"
    (BalInventory {[ "EUR" := D (-1000) (-2) ]}).

Definition cash : Member :=
  mkMember "--cash--" "--CASH--" CASH_ACCT
    (BalInventory {[ "EUR" := D 25000 (-2) ]}).

Definition example_ledger : string := "/srv/bartab/ledger/tap_1.beancount".

Definition example_raw : gmap string nat :=
  {[ "Liabilities:Bar:Members:alice" := 0%nat; CASH_ACCT := 1%nat ]}.

Definition example_self : RepoData :=
  mkRepoData
    (Assigned {[ "alice" := 0%nat; "--cash--" := 1%nat ]})
    (Assigned example_raw)
    (Assigned ∅) (Some example_ledger) (Some example_ledger).

Definition example_state (fails : nat -> bool) : State :=
  mkState (example_world fails []) example_self [alice; cash].

(** An engine that has no instance ledger yet, in a directory where the
    first candidate name is taken. *)
Definition example_taken : string :=
  "/srv/bartab/ledger/tap_2021-06-15 12:30:00+00:00.beancount".

Definition example_unallocated (fails : nat -> bool) : State :=
  mkState (example_world fails [example_taken]) RepoData_init [].

Definition never : nat -> bool := fun _ => false.
Definition only (k : nat) : nat -> bool := fun n => (n =? k)%nat.

Definition no_tolerances : list bcdata.Posting -> gmap string Decimal :=
  fun _ => ∅.

Definition no_parser : string -> option Decimal := fun _ => None.

Definition empty_txn : bcdata.Transaction :=
  bcdata.mkTransaction [] (mkdate 1 1 1) "txn" None "" [] [] [].

(** The transaction a builder returns, or [empty_txn] when it raises. *)
Definition the_txn (r : result bcdata.Transaction * State)
  : bcdata.Transaction :=
  match r with (Ok txn, _) => txn | (Raise _, _) => empty_txn end.

Definition five : Decimal := D 500 (-2).

Definition alice_deposit : bcdata.Transaction :=
  the_txn (DepositTxn alice five None (example_state never)).


Definition new_year : datetime :=
  mkdatetime (mkdate 2020 1 1) 10 0 0 5 false.

(** A catalog entry with a payback and one without. *)
Definition pils_definition : pyval :=
  PDict [("name", PStr "Pils"); ("currency", PStr "PILS");
         ("price", PFloat (D 35 (-1)));
         ("payback", PDict [("account", PStr "Liabilities:Bar:Members:bob");
                            ("amount", PFloat (D 5 (-1)))])].

Definition cola_definition : pyval :=
  PDict [("name", PStr "Cola"); ("currency", PStr "COLA");
         ("price", PFloat (D 35 (-1)))].


Definition cola : Product :=
  mkProduct "Cola" (PDict []) "COLA" (D 350 (-2)) Unset.


Definition example_sources : Sources :=
  mkSources (Ok (PList [cola_definition; pils_definition]))
    [bcdata.Open "Liabilities:Bar:Members:alice" [("display_name", "Alice")];
     bcdata.OtherDirective;
     bcdata.Open CASH_ACCT [];
     bcdata.Open "Liabilities:Bar:Members:carol" []]
    []
    [("Liabilities:Bar:Members:alice", {[ "EUR" := D (-1000) (-2) ]});
     (CASH_ACCT, {[ "EUR" := D 25000 (-2) ]})].

(** * Vocabulary of the further properties *)

(** ** Accounts *)

(** The number of colons of an account name: one less than the number of
    its components. *)
Fixpoint count_colons (s : string) : nat :=
  match s with
  | EmptyString => O
  | String c s' => (if Ascii.eqb c ":"%char then 1 else 0) + count_colons s'
  end.

(** ** Purchases *)










(** ** Balances *)

(** What the postings [ps] add to the account [a] in the currency [c]. *)
Definition posting_to (a c : string) (p : bcdata.Posting) : Q :=
  if decide (bcdata.account p = a) then posting_in c p else 0%Q.

Fixpoint account_sum (a c : string) (ps : list bcdata.Posting) : Q :=
  match ps with
  | [] => 0%Q
  | p :: rest => (posting_to a c p + account_sum a c rest)%Q
  end.

(** The units of currency [c] that the member at [l] holds. *)
Definition units_at (h : list Member) (l : nat) (c : string) : Q :=
  match h !! l with
  | Some m =>
      match balance m with
      | BalInventory inv => dval (get_currency_units inv c)
      | BalDecimal _ => 0%Q
      end
  | None => 0%Q
  end.

(** No posting of [ps] is to the account of the member at [l]. *)
Definition untouched (raw : gmap string nat) (ps : list bcdata.Posting)
    (l : nat) : Prop :=
  Forall (fun p => raw !! bcdata.account p <> Some l) ps.



(** ** External calls *)

(** The next [n] external calls succeed. *)
Definition calls_succeed (n : nat) (s : State) : Prop :=
  forall k, (k < n)%nat ->
    fails (world s) (length (calls (world s)) + k)%nat = false.

Definition git_add (filename : string) : Cmd := Run ["git"; "add"; filename].

Definition is_reset (c : Cmd) : bool :=
  match c with Run ["git"; "reset"; "--hard"; _] => true | _ => false end.


(** ** The instance ledger *)

Definition dynamic_path (w : World) : string :=
  path_join (path_join (DATA_DIR w) "ledger") "dynamic.beancount".

Definition with_ledger_name (n : option string) (r : RepoData) : RepoData :=
  mkRepoData (accounts r) (accounts_raw r) (products r) n (instance_ledger r).

Definition with_ledger (h : option string) (r : RepoData) : RepoData :=
  mkRepoData (accounts r) (accounts_raw r) (products r)
    (instance_ledger_name r) h.

(** The calls of a turn of the allocator whose candidate is free, before
    the push. *)
Definition allocation_calls (w : World) : list Cmd :=
  [git_rev_parse; OpenX (trial_path w); OpenA (dynamic_path w);
   WriteTo (dynamic_path w) (IncludeLine (trial_name w));
   git_add (path_join "ledger" (trial_name w));
   git_add (path_join "ledger" "dynamic.beancount")].

(** ** The directory that [load_data] builds *)

(** The accounts of the [Open] directives of the ledger. *)
Definition opened (entries : list bcdata.Directive) : list string :=
  omap (fun d => match d with
                 | bcdata.Open a _ => Some a
                 | bcdata.OtherDirective => None
                 end) entries.

Definition internal_name_of (acct : string) : option string :=
  match Member_init acct with
  | Ok m => Some (internal_name m)
  | Raise _ => None
  end.

(** The two dictionaries that [load_data] builds over the heap [h], on
    top of the [base] objects that were there: every entry of
    [accounts_raw] leads to a new object of that account, named as
    [Member] names it, with the balance of the query; every entry of
    [accounts] leads to an object that [accounts_raw] holds under its
    account. *)
Definition filed (base : nat) (balances : gmap string Inventory)
    (acc raw : gmap string nat) (h : list Member) : Prop :=
  (forall a l, raw !! a = Some l ->
     (base <= l)%nat
     /\ exists m bal, h !! l = Some m /\ account m = a
          /\ internal_name_of a = Some (internal_name m)
          /\ balances !! a = Some bal /\ balance m = BalInventory bal)
  /\ (forall k l, acc !! k = Some l ->
        exists m, h !! l = Some m /\ internal_name m = k
                  /\ raw !! account m = Some l).

(** ** Pulling, and runs of the engine *)

Definition git_pull_call : Cmd := Run (shell git_pull).
Definition git_checkout : Cmd := Run ["git"; "checkout"; "@{-1}"].

(** The directory fields of the engine. *)
Definition same_directory (r r' : RepoData) : Prop :=
  accounts r' = accounts r /\ accounts_raw r' = accounts_raw r
  /\ products r' = products r.

(** The invariants of the instance ledger: the name does not change once
    it is set, and an open handle is a handle on the file of that name. *)
Definition name_kept (r r' : RepoData) : Prop :=
  forall n, instance_ledger_name r = Some n -> instance_ledger_name r' = Some n.

Definition handle_on_name (r : RepoData) : Prop :=
  forall h, instance_ledger r = Some h -> instance_ledger_name r = Some h.

(** A computation that changes nothing of the engine but, possibly, the
    name of the instance ledger. *)
Definition renames {A} (m : M A) : Prop :=
  forall s r s', m s = (r, s') ->
    heap s' = heap s /\ exists n, self s' = with_ledger_name n (self s).

(** The state in which [pull_changes] runs its pull. *)
Definition closed (s : State) : State :=
  set_self (with_ledger None (self s)) s.

(** The state after a pull that succeeded. *)
Definition pulled (up : Upstream) (s : State) : State :=
  set_world (w_tree (merged up) (world (after_call git_pull_call (closed s))))
    (after_call git_pull_call (closed s)).

Section Steps.
Variable Decimal_of_str : string -> option Decimal.
Variable infer_tolerances : list bcdata.Posting -> gmap string Decimal.

(** One operation of the engine, from state to state. *)
Inductive engine_step : State -> State -> Prop :=
| step_open fuel s r s' :
    open_instance_ledger fuel s = Some (r, s') -> engine_step s s'
| step_close s r s' :
    close_instance_ledger s = (r, s') -> engine_step s s'
| step_apply txn s r s' :
    apply_txn infer_tolerances txn s = (r, s') -> engine_step s s'
| step_load src s r s' :
    load_data Decimal_of_str src s = (r, s') -> engine_step s s'
| step_pull up fuel s r s' :
    pull_changes Decimal_of_str up fuel s = Some (r, s') -> engine_step s s'.
End Steps.

(** ** Further concrete states and inputs *)

(** An engine that has no instance ledger yet, in a directory where the
    first candidate name is free. *)
Definition example_free (fails : nat -> bool) : State :=
  mkState (example_world fails []) RepoData_init [].




Definition example_upstream : Upstream :=
  mkUpstream "fatal: unable to access the remote" (mkTree "9c1d" [])
    example_sources (mkTree "4f2a" []).




(** * Properties *)

(** ** The model on concrete inputs *)

Example parse_price_float :
  parse_price no_parser (PFloat (D 35 (-1))) = Ok (D 350 (-2)).
Proof. reflexivity. Qed.

Example quantize_ties_to_even :
  quantize_0_00 (D 125 (-3)) = D 12 (-2)
  /\ quantize_0_00 (D 135 (-3)) = D 14 (-2)
  /\ quantize_0_00 (D (-125) (-3)) = D (-12) (-2).
Proof. repeat split. Qed.

Example Decimal_str_examples :
  Decimal_str (D 500 (-2)) = "5.00"
  /\ Decimal_str (D (-5) (-1)) = "-0.5"
  /\ Decimal_str (D 1 3) = "1E+3"
  /\ Decimal_str (D 123 (-8)) = "0.00000123"
  /\ Decimal_str (D 1 (-7)) = "1E-7".
Proof. repeat split; vm_compute; reflexivity. Qed.

Example Member_init_member :
  Member_init "Liabilities:Bar:Members:alice"
  = Ok (mkMember "alice" "alice" "Liabilities:Bar:Members:alice"
          (BalDecimal d0_00)).
Proof. reflexivity. Qed.

Example Member_init_cash :
  Member_init CASH_ACCT
  = Ok (mkMember "--cash--" "--CASH--" CASH_ACCT (BalDecimal d0_00)).
Proof. reflexivity. Qed.

Example Member_init_three_components :
  Member_init "Liabilities:Bar:alice"
  = Raise (ValueError "Member account should have four components"
             "Liabilities:Bar:alice").
Proof. reflexivity. Qed.

Example alice_deposit_postings :
  bcdata.postings alice_deposit
  = [posting "Liabilities:Bar:Members:alice" (D (-500) (-2)) "EUR";
     posting CASH_ACCT (D 500 (-2)) "EUR"]
  /\ bcdata.narration alice_deposit = "alice deposited €5.00".
Proof. split; vm_compute; reflexivity. Qed.

Example apply_alice_deposit_calls :
  calls (world (snd (apply_txn no_tolerances alice_deposit
                       (example_state never))))
  = [git_rev_parse; WriteTo example_ledger (PrintedEntry alice_deposit);
     Run ["git"; "add"; example_ledger]; git_push].
Proof. vm_compute. reflexivity. Qed.

Example load_example_sources :
  let r := load_data no_parser example_sources (example_unallocated never) in
  fst r = Ok tt
  /\ accounts (self (snd r))
     = Assigned {[ "alice" := 0%nat; "--cash--" := 1%nat ]}
  /\ (balance_eur <$> heap (snd r))
     = [Ok (D (-1000) (-2)); Ok (D 25000 (-2))]
  /\ (display_name <$> heap (snd r)) = ["Alice"; "--CASH--"].
Proof. cbv zeta. repeat split; vm_compute; reflexivity. Qed.

(** ** Decimal arithmetic is exact *)

Lemma ten_neq_0 : ~ (10 # 1 == 0)%Q.
Proof. discriminate. Qed.

Lemma dval_shift (c e k : Z) :
  0 <= k ->
  (inject_Z (c * 10 ^ k) * (10 # 1) ^ e == inject_Z c * (10 # 1) ^ (e + k))%Q.
Proof.
  intros Hk.
  rewrite inject_Z_mult, (Zpower_Qpower 10 k Hk).
  rewrite (Qpower_plus (10 # 1) e k ten_neq_0).
  change (inject_Z 10) with (10 # 1)%Q. ring.
Qed.

Lemma dval_dadd a b : (dval (dadd a b) == dval a + dval b)%Q.
Proof.
  unfold dval, dadd; cbn [coef expo].
  set (e := Z.min (expo a) (expo b)).
  rewrite inject_Z_plus, Qmult_plus_distr_l.
  rewrite (dval_shift (coef a) e (expo a - e)) by lia.
  rewrite (dval_shift (coef b) e (expo b - e)) by lia.
  replace (e + (expo a - e)) with (expo a) by lia.
  replace (e + (expo b - e)) with (expo b) by lia.
  reflexivity.
Qed.





Lemma dval_ZERO : (dval ZERO == 0)%Q.
Proof. reflexivity. Qed.

Lemma dval_zero_iff a : (dval a == 0)%Q <-> coef a = 0.
Proof.
  unfold dval. split.
  - intros H. apply Qmult_integral in H as [H | H].
    + unfold Qeq in H; cbn in H. lia.
    + exfalso. exact (Qpower_not_0 _ _ ten_neq_0 H).
  - intros ->. ring.
Qed.

Lemma dis_zero_dval a : dis_zero a = true <-> (dval a == 0)%Q.
Proof. unfold dis_zero. rewrite Z.eqb_eq. symmetry. apply dval_zero_iff. Qed.

(** ** Inventories and residuals *)



Lemma add_amount_units (inv : Inventory) c n c' :
  (dval (get_currency_units (add_amount inv c n) c')
   == dval (get_currency_units inv c')
      + (if decide (c = c') then dval n else 0))%Q.
Proof.
  unfold add_amount, get_currency_units.
  destruct (inv !! c) as [pos|] eqn:Hc.
  - destruct (dis_zero (dadd pos n)) eqn:Hz.
    + apply dis_zero_dval in Hz. rewrite dval_dadd in Hz.
      destruct (decide (c = c')) as [<-|Hne].
      * rewrite lookup_delete_eq, Hc. rewrite dval_ZERO. lra.
      * rewrite lookup_delete_ne by done. lra.
    + destruct (decide (c = c')) as [<-|Hne].
      * rewrite lookup_insert_eq, Hc. apply dval_dadd.
      * rewrite lookup_insert_ne by done. lra.
  - destruct (dis_zero n) eqn:Hz.
    + apply dis_zero_dval in Hz.
      destruct (decide (c = c')) as [<-|Hne]; [rewrite Hc|]; lra.
    + destruct (decide (c = c')) as [<-|Hne].
      * rewrite lookup_insert_eq, Hc. rewrite dval_ZERO. lra.
      * rewrite lookup_insert_ne by done. lra.
Qed.






(** ** The builders *)

Ltac step_bind H :=
  match type of H with
  | context [bind ?m ?k ?s] =>
      let E := fresh "E" in
      unfold bind at 1 in H;
      destruct (m s) as [[?|?] ?] eqn:E; [|discriminate H]
  end.


Lemma Transaction_init_ok title date meta s :
  exists t s', Transaction_init (Some title) date meta s = (Ok t, s')
               /\ bcdata.postings t = [].
Proof.
  unfold Transaction_init, bind, ret, utcnow.
  destruct date as [[dt|d]|]; cbn; eauto.
Qed.

Lemma Transaction_init_stamped title date tp s t s' :
  Transaction_init title date (Some [("type", tp)]) s = (Ok t, s') ->
  stamped date s t.
Proof.
  unfold Transaction_init, stamped, reading, bind, ret, raise, utcnow.
  intros H.
  destruct date as [[dt|d]|], title as [title|]; cbn in H; try discriminate;
    injection H as <- <-; cbn; rewrite ?Nat.add_0_r, ?Nat.add_1_r; auto.
Qed.


Lemma BuyTxn_items_meta buyer products :
  forall txn charge pbs txn' charge' pbs',
    BuyTxn_items buyer products txn charge pbs = Ok (txn', charge', pbs') ->
    bcdata.meta txn' = bcdata.meta txn /\ bcdata.date txn' = bcdata.date txn.
Proof.
  induction products as [|[product qty] rest IH];
    intros txn charge pbs txn' charge' pbs' H; cbn [BuyTxn_items] in H.
  - injection H as <- _ _. auto.
  - destruct (payback product) as [|pb]; [discriminate|].
    apply IH in H as [H1 H2]. auto.
Qed.


Lemma BuyTxn_paybacks_meta pbs :
  forall txn charge txn' charge',
    BuyTxn_paybacks pbs txn charge = (txn', charge') ->
    bcdata.meta txn' = bcdata.meta txn /\ bcdata.date txn' = bcdata.date txn.
Proof.
  induction pbs as [|[payee amt] rest IH]; intros txn charge txn' charge' H;
    cbn [BuyTxn_paybacks] in H.
  - injection H as <- _. auto.
  - apply IH in H as [H1 H2]. auto.
Qed.






Section ZeroSum.

Variable infer_tolerances : list bcdata.Posting -> gmap string Decimal.


End ZeroSum.





(** C5. A product constructed from a definition without a [payback] key
    has no [payback] attribute, and [BuyTxn] reads that attribute of every
    product bought: buying two units of such a product priced 3.50 raises
    [AttributeError] instead of returning a transaction. *)
Theorem BuyTxn_without_payback_raises
    (Decimal_of_str : string -> option Decimal) (buyer : Member)
    (date : option date_arg) (s : State) :
  Product_init Decimal_of_str cola_definition = Ok cola
  /\ price cola = D 350 (-2)
  /\ payback cola = Unset
  /\ fst (BuyTxn buyer [(cola, 2)] date s)
     = Raise (AttributeError "Product" "payback").
Proof.
  split; [reflexivity|]. split; [reflexivity|]. split; [reflexivity|].
  destruct (Transaction_init_ok (display_name buyer +:+ " bought some stuff")
              date (Some [("type", "purchase")]) s) as (t & s' & Ht & _).
  unfold BuyTxn, bind at 1. rewrite Ht. reflexivity.
Qed.

Lemma stamped_ext date s t t' :
  bcdata.meta t' = bcdata.meta t -> bcdata.date t' = bcdata.date t ->
  stamped date s t -> stamped date s t'.
Proof. unfold stamped. intros -> ->. auto. Qed.

(** C8, as the code has it. A transaction built with a [datetime] has
    that datetime's date, and its [timestamp] metadata is the string of
    the clock reading taken during construction; built without a date it
    has the date of a first clock reading and the timestamp of a second
    one; built with a plain date it has that date and no timestamp. The
    datetime of the caller is not written to the metadata. *)
Theorem builder_date_and_timestamp (date : option date_arg) (s : State)
    (txn : bcdata.Transaction) :
  built_on date s txn -> stamped date s txn.
Proof.
  intros [buyer products t s' H|payer payee amount t s' H|member amount t s' H].
  - unfold BuyTxn in H. step_bind H. apply Transaction_init_stamped in E.
    step_bind H. destruct a0 as [[t1 charge] pbs]. unfold lift in E0.
    injection E0 as E0 <-. apply BuyTxn_items_meta in E0 as [M1 D1].
    destruct (BuyTxn_paybacks pbs _ charge) as [t2 charge'] eqn:E2.
    apply BuyTxn_paybacks_meta in E2 as [M2 D2].
    unfold ret in H. injection H as <- <-.
    cbn in M2, D2. eapply stamped_ext; [| |exact E]; cbn; congruence.
  - unfold TransferTxn in H. step_bind H. apply Transaction_init_stamped in E.
    unfold ret in H. injection H as <- <-. exact E.
  - unfold DepositTxn in H. step_bind H. apply Transaction_init_stamped in E.
    unfold ret in H. injection H as <- <-. exact E.
Qed.

Lemma builder_date_and_timestamp_witness :
  stamped (Some (ADatetime new_year)) (example_state never)
    (the_txn (DepositTxn alice five (Some (ADatetime new_year))
                (example_state never))).
Proof.
  apply builder_date_and_timestamp.
  eapply built_deposit with (member := alice) (amount := five).
  vm_compute. reflexivity.
Defined.

(** C8 as stated fails: a deposit built at 12:30:00 on 2021-06-15 with the
    datetime 2020-01-01 10:00:00.000005 carries the construction time as
    its timestamp, and the caller's datetime nowhere in its metadata. *)
Lemma timestamp_is_not_the_callers :
  let r := DepositTxn alice five (Some (ADatetime new_year))
             (example_state never) in
  is_Ok (fst r) = true
  /\ bcdata.date (the_txn r) = mkdate 2020 1 1
  /\ bcdata.meta (the_txn r)
     = [("type", "deposit"); ("timestamp", "2021-06-15 12:30:00")]
  /\ datetime_str new_year = "2020-01-01 10:00:00.000005"
  /\ ~ In (datetime_str new_year) (map snd (bcdata.meta (the_txn r))).
Proof.
  cbv zeta. split; [reflexivity|]. split; [reflexivity|].
  split; [vm_compute; reflexivity|]. split; [vm_compute; reflexivity|].
  vm_compute. intros [H|[H|[]]]; discriminate H.
Qed.

(** ** The commit protocol *)

Lemma call_Run_ok args s :
  next_call_fails s = false ->
  call (Run args) s
  = (Ok (output (Run args) (world s)), after_call (Run args) s).
Proof.
  unfold next_call_fails, call, perform, outcome. intros ->. reflexivity.
Qed.

Lemma call_Run_fail args s :
  next_call_fails s = true ->
  call (Run args) s
  = (Raise (CalledProcessError args), after_failed_call (Run args) s).
Proof.
  unfold next_call_fails, call, perform, outcome. intros ->. reflexivity.
Qed.

Lemma subprocess_run_ok args s :
  next_call_fails s = false ->
  subprocess_run args s = (Ok tt, after_call (Run args) s).
Proof.
  intros H. unfold subprocess_run, bind. rewrite (call_Run_ok _ _ H).
  reflexivity.
Qed.

Lemma subprocess_run_fail args s :
  next_call_fails s = true ->
  subprocess_run args s
  = (Raise (CalledProcessError args), after_failed_call (Run args) s).
Proof.
  intros H. unfold subprocess_run, bind. rewrite (call_Run_fail _ _ H).
  reflexivity.
Qed.


Lemma git_transaction_unfold {A} (block : M A) s :
  git_transaction block s =
  match subprocess_check_output ["git"; "rev-parse"; "HEAD"] s with
  | (Raise e, s1) => (Raise e, s1)
  | (Ok head, s1) =>
      match block s1 with
      | (Raise e, sb) => rollback head e sb
      | (Ok v, sb) =>
          match subprocess_run ["git"; "push"] sb with
          | (Ok _, sp) => (Ok v, sp)
          | (Raise e, sp) => rollback head e sp
          end
      end
  end.
Proof.
  unfold git_transaction, try_except, rollback, bind, raise, ret.
  destruct (subprocess_check_output _ s) as [[head|e] s1]; [|reflexivity].
  destruct (block s1) as [[v|e] sb].
  - destruct (subprocess_run ["git"; "push"] sb) as [[[]|e] sp]; reflexivity.
  - reflexivity.
Qed.




(** ** Applying a transaction *)

Lemma world_only_call c : world_only (call c).
Proof.
  intros s r s'. unfold call. destruct (perform c (world s)) as [r0 w].
  intros [= <- <-]. split; reflexivity.
Qed.

Lemma world_only_ret {A} (a : A) : world_only (ret a).
Proof. intros s r s' [= <- <-]. split; reflexivity. Qed.

Lemma world_only_raise {A} e : world_only (@raise A e).
Proof. intros s r s' [= <- <-]. split; reflexivity. Qed.

Lemma world_only_get_self : world_only get_self.
Proof. intros s r s' [= <- <-]. split; reflexivity. Qed.

Lemma world_only_print_text t : world_only (print_text t).
Proof. intros s r s' [= <- <-]. split; reflexivity. Qed.

Lemma world_only_bind {A B} (m : M A) (k : A -> M B) :
  world_only m -> (forall a, world_only (k a)) -> world_only (bind m k).
Proof.
  intros Hm Hk s r s'. unfold bind.
  destruct (m s) as [[a|e] s1] eqn:E; apply Hm in E as [E1 E2].
  - intros H. apply Hk in H as [H1 H2]. split; congruence.
  - intros [= <- <-]. split; assumption.
Qed.

Lemma world_only_try_except {A} (m : M A) h :
  world_only m -> (forall e, world_only (h e)) -> world_only (try_except m h).
Proof.
  intros Hm Hh s r s'. unfold try_except.
  destruct (m s) as [[a|e] s1] eqn:E; apply Hm in E as [E1 E2].
  - intros [= <- <-]. split; assumption.
  - intros H. apply Hh in H as [H1 H2]. split; congruence.
Qed.

Create HintDb world_only.
#[local] Hint Resolve world_only_call world_only_ret world_only_raise
  world_only_get_self world_only_print_text : world_only.

Lemma world_only_subprocess_run args : world_only (subprocess_run args).
Proof. apply world_only_bind; auto with world_only. Qed.

#[local] Hint Resolve world_only_subprocess_run : world_only.

Lemma world_only_git_transaction {A} (block : M A) :
  world_only block -> world_only (git_transaction block).
Proof.
  intros Hb. unfold git_transaction.
  apply world_only_bind; [apply world_only_call|]. intros head.
  apply world_only_try_except.
  - apply world_only_bind; [exact Hb|]. intros v.
    apply world_only_bind; auto with world_only.
  - intros e. apply world_only_bind; auto with world_only.
Qed.

Lemma world_only_print_entry txn f : world_only (print_entry txn f).
Proof.
  destruct f; cbn [print_entry]; [|apply world_only_print_text].
  apply world_only_bind; auto with world_only.
Qed.

Lemma world_only_append_entry txn : world_only (append_entry txn).
Proof.
  unfold append_entry.
  apply world_only_bind; [apply world_only_get_self|]. intros r.
  apply world_only_bind; [apply world_only_print_entry|]. intros _.
  destruct (instance_ledger_name r); auto with world_only.
  apply world_only_subprocess_run.
Qed.

Lemma commit_touches_world_only txn s r s' :
  git_transaction (append_entry txn) s = (r, s') ->
  self s' = self s /\ heap s' = heap s.
Proof.
  apply (world_only_git_transaction _ (world_only_append_entry txn)).
Qed.

Section ApplyTxn.

Variable infer_tolerances : list bcdata.Posting -> gmap string Decimal.

(** C2. In [apply_txn] the commit protocol around the append to the
    instance ledger comes first. If it raises (the append, the staging or
    the push failed), [apply_txn] raises and every member object, and the
    engine's fields, are what they were before the call. No member object
    differs after [apply_txn] unless the commit protocol returned. *)
Theorem apply_txn_durability_first (txn : bcdata.Transaction) (s : State) :
  (forall e s1,
      git_transaction (append_entry txn) s = (Raise e, s1) ->
      exists e' s', apply_txn infer_tolerances txn s = (Raise e', s')
                    /\ heap s' = heap s /\ self s' = self s)
  /\ (forall r s',
        apply_txn infer_tolerances txn s = (r, s') ->
        heap s' <> heap s ->
        exists s1, git_transaction (append_entry txn) s = (Ok tt, s1)).
Proof.
  unfold apply_txn.
  destruct (is_small _ _); cbn [negb].
  - split.
    + intros e s1 H. unfold bind. rewrite H. exists e, s1.
      apply commit_touches_world_only in H as [H1 H2]. auto.
    + intros r s'. unfold bind.
      destruct (git_transaction (append_entry txn) s) as [[[]|e] s1] eqn:E.
      * intros _ _. exists s1. reflexivity.
      * apply commit_touches_world_only in E as [E1 E2].
        intros [= <- <-] Hne. contradiction.
  - split.
    + intros e s1 _.
      exists (AssertionError "Imbalanced transaction generated"), s. auto.
    + intros r s' [= <- <-] Hne. contradiction.
Qed.

End ApplyTxn.

(** A deposit whose push is rejected. *)
Lemma apply_txn_durability_first_witness :
  exists e' s',
    apply_txn no_tolerances alice_deposit (example_state (only 3))
    = (Raise e', s')
    /\ heap s' = [alice; cash] /\ self s' = example_self.
Proof.
  destruct (apply_txn_durability_first no_tolerances alice_deposit
              (example_state (only 3))) as [H _].
  eapply H. vm_compute. reflexivity.
Defined.

Lemma entry_ok_inv h a l :
  entry_ok h a l = true ->
  exists m inv, h !! l = Some m /\ account m = a
                /\ balance m = BalInventory inv.
Proof.
  unfold entry_ok. destruct (h !! l) as [m|]; [|discriminate].
  intros H. apply andb_true_iff in H as [H1 H2].
  apply String.eqb_eq in H1.
  destruct (balance m) as [|inv] eqn:Hb; [discriminate|]. eauto.
Qed.

Lemma member_add_amount_ok s l m inv u :
  heap s !! l = Some m -> balance m = BalInventory inv ->
  member_add_amount l u s
  = (Ok tt,
     set_heap (<[l := with_balance m
                        (BalInventory
                           (add_amount inv (bcdata.currency u)
                              (bcdata.number u)))]> (heap s)) s).
Proof.
  intros H1 H2. unfold member_add_amount. rewrite H1, H2. reflexivity.
Qed.

Section Deposit.

Variable infer_tolerances : list bcdata.Posting -> gmap string Decimal.


End Deposit.



(** ** Loading the directory *)

Lemma Member_init_account acct m : Member_init acct = Ok m -> account m = acct.
Proof.
  unfold Member_init. destruct (String.eqb acct _); [intros [= <-]; reflexivity|].
  destruct (negb _); [discriminate|]. intros [= <-]. reflexivity.
Qed.





Lemma load_accounts_frame entries balances :
  forall acc raw s r s',
    load_accounts entries balances acc raw s = (r, s') ->
    self s' = self s /\ heap s `prefix_of` heap s'.
Proof.
  induction entries as [|[entry_account entry_meta|] rest IH];
    intros acc raw s r s' H; cbn [load_accounts] in H.
  - injection H as <- <-. auto.
  - destruct (balances !! entry_account) as [bal|] eqn:Hbal.
    + unfold bind at 1, lift in H.
      destruct (Member_init entry_account) as [m|e] eqn:Hm.
      * unfold bind at 1, alloc in H. apply IH in H as [H1 H2].
        cbn in H1, H2. split; [exact H1|].
        etrans; [|exact H2]. by apply prefix_app_r.
      * injection H as <- <-. auto.
    + unfold bind at 1, print, print_text in H.
      apply IH in H as [H1 H2]. auto.
  - apply IH in H; assumption.
Qed.

Section Catalog.

Variable Decimal_of_str : string -> option Decimal.


Lemma load_data_unfold src s :
  load_data Decimal_of_str src s =
  match products_yml src with
  | Raise e => (Raise e, s)
  | Ok (PList raws) =>
      match load_products Decimal_of_str raws ∅ with
      | Raise e => (Raise e, s)
      | Ok products =>
          match errors src with
          | _ :: _ =>
              (Raise (UpdateFailed
                        (StringIO_getvalue "Failed to load ledger
" (String.concat "" (errors src)))), s)
          | [] =>
              match load_accounts (ledger_data src)
                      (balances_of (query_rows src)) ∅ ∅ s with
              | (Raise e, s1) => (Raise e, s1)
              | (Ok (accounts, accounts_raw), s1) =>
                  (Ok tt,
                   set_self (mkRepoData (Assigned accounts)
                               (Assigned accounts_raw) (Assigned products)
                               (instance_ledger_name (self s1))
                               (instance_ledger (self s1))) s1)
              end
          end
      end
  | Ok _ => (Raise (TypeError "Products should be a list"), s)
  end.
Proof.
  unfold load_data, bind, lift, raise, get_self, put_self, balances_of.
  destruct (products_yml src) as [[]|]; try reflexivity.
  destruct (load_products _ _ _); [|reflexivity].
  destruct (errors src); [|reflexivity].
  destruct (load_accounts _ _ _ _ s) as [[[acc raw]|e] s1]; reflexivity.
Qed.



End Catalog.



(** ** The allocator *)

Lemma no_collision_ret {A} (a : A) : no_collision (ret a).
Proof. intros s r s' [= <- <-]. reflexivity. Qed.

Lemma no_collision_bind {A B} (m : M A) (k : A -> M B) :
  no_collision m -> (forall a, no_collision (k a)) -> no_collision (bind m k).
Proof.
  intros Hm Hk s r s'. unfold bind.
  destruct (m s) as [[a|e] s1] eqn:E.
  - apply Hk.
  - intros [= <- <-]. apply Hm in E. exact E.
Qed.

(** Only exclusive creation raises [FileExistsError]. *)
Lemma no_collision_call c :
  match c with OpenX _ => False | _ => True end -> no_collision (call c).
Proof.
  intros Hc s r s'. unfold call, perform, outcome.
  destruct c; try contradiction;
    try destruct (fails (world s) _); intros [= <- <-]; reflexivity.
Qed.

Lemma no_collision_subprocess_run args : no_collision (subprocess_run args).
Proof.
  apply no_collision_bind;
    [by apply no_collision_call|intros; apply no_collision_ret].
Qed.

Lemma no_collision_try_except {A} (body handler : M A) :
  no_collision handler ->
  no_collision (try_except_FileExistsError body handler).
Proof.
  intros Hh s r s'. unfold try_except_FileExistsError, try_except.
  destruct (body s) as [[a|e] s1]; [intros [= <- <-]; reflexivity|].
  destruct e; try (intros [= <- <-]; reflexivity). apply Hh.
Qed.

Lemma no_collision_git_transaction {A} (block : M A) :
  no_collision block -> no_collision (git_transaction block).
Proof.
  intros Hb s r s'. rewrite git_transaction_unfold. unfold rollback.
  destruct (subprocess_check_output _ s) as [[head|e] s1] eqn:E1.
  2:{ intros [= <- <-]. by apply no_collision_call in E1. }
  destruct (block s1) as [[v|e] sb] eqn:E2.
  - destruct (subprocess_run ["git"; "push"] sb) as [[[]|e] sp] eqn:E3.
    + intros [= <- <-]. reflexivity.
    + apply no_collision_subprocess_run in E3.
      destruct (subprocess_run _ sp) as [[[]|e'] s3] eqn:E4; intros [= <- <-].
      * exact E3.
      * by apply no_collision_subprocess_run in E4.
  - apply Hb in E2.
    destruct (subprocess_run _ sb) as [[[]|e'] s3] eqn:E4; intros [= <- <-].
    + exact E2.
    + by apply no_collision_subprocess_run in E4.
Qed.

Lemma no_collision_turn : no_collision open_instance_ledger_turn.
Proof.
  unfold open_instance_ledger_turn.
  apply no_collision_bind; [intros s r s' [= <- <-]; reflexivity|]. intros w.
  apply no_collision_bind.
  { apply no_collision_bind; [intros s r s' [= <- <-]; reflexivity|].
    intros; apply no_collision_ret. }
  intros now. apply no_collision_git_transaction.
  apply no_collision_bind.
  { apply no_collision_try_except.
    apply no_collision_bind;
      [by apply no_collision_call|intros; apply no_collision_ret]. }
  intros [|]; [apply no_collision_ret|].
  repeat (apply no_collision_bind;
          [first [by apply no_collision_call
                 |apply no_collision_subprocess_run]|intros ?]).
  apply no_collision_ret.
Qed.

Lemma no_collision_loop fuel : forall s r s',
  open_instance_ledger_loop fuel s = Some (r, s') -> is_collision r = false.
Proof.
  induction fuel as [|fuel IH]; intros s r s'; cbn [open_instance_ledger_loop];
    destruct (instance_ledger_name (self s));
    try (intros [= <- <-]; reflexivity); try discriminate.
  destruct (open_instance_ledger_turn s) as [[v|e] s1] eqn:E.
  - apply IH.
  - intros [= <- <-]. by apply no_collision_turn in E.
Qed.

Lemma collision_never_surfaces fuel s r s' :
  open_instance_ledger fuel s = Some (r, s') -> is_collision r = false.
Proof.
  unfold open_instance_ledger.
  destruct (instance_ledger (self s)); [intros [= <- <-]; reflexivity|].
  destruct (open_instance_ledger_loop fuel s) as [[[[]|e] s1]|] eqn:E;
    [| |discriminate].
  - destruct (instance_ledger_name (self s1)).
    + intros [= H]. revert H.
      apply no_collision_bind; [by apply no_collision_call|]. intros _.
      apply no_collision_bind; [|intros; apply no_collision_ret].
      intros s2 r2 s2'. unfold set_instance_ledger, bind, get_self, put_self.
      intros [= <- <-]. reflexivity.
    + intros [= <- <-]. reflexivity.
  - intros [= <- <-]. by apply no_collision_loop in E.
Qed.

Lemma collision_turn (s : State) :
  let w := world s in
  path_exists w (trial_path w) = true ->
  fails w (length (calls w)) = false ->
  fails w (length (calls w) + 3) = false ->
  open_instance_ledger_turn s
  = (Ok Continue,
     set_world (w_log git_push (w_log (Sleep 1) (w_log (OpenX (trial_path w))
                  (w_log git_rev_parse (w_tick w))))) s).
Proof.
  intros w Hex H0 H3.
  unfold open_instance_ledger_turn, bind at 1, get_world.
  unfold bind at 1, now_utc, bind at 1, utcnow, ret at 1.
  rewrite git_transaction_unfold.
  unfold subprocess_check_output.
  rewrite call_Run_ok by exact H0.
  unfold try_except_FileExistsError, try_except, bind at 1, bind at 1,
    call at 1, perform.
  fold w. cbn [world set_world after_call].
  change (path_join (path_join (DATA_DIR w) "ledger")
            (hostname w +:+ "_" +:+ datetime_str (as_aware (clock w (ticks w)))
               +:+ ".beancount"))
    with (trial_path w).
  change (effect (Run ["git"; "rev-parse"; "HEAD"]) ?x) with x.
  replace (path_exists (w_log _ (w_tick w)) (trial_path w)) with true
    by (symmetry; exact Hex).
  unfold bind at 1, call at 1, perform. cbn [world set_world].
  unfold ret at 1, ret at 1.
  rewrite subprocess_run_ok; [reflexivity|].
  unfold next_call_fails. cbn [world set_world w_log calls fails w_tick].
  rewrite !length_app. cbn [length].
  replace (length (calls w) + 1 + 1 + 1)%nat with (length (calls w) + 3)%nat
    by lia.
  exact H3.
Qed.

(** C9, as the code has it. When the candidate of a turn already exists
    (and [git rev-parse] succeeded), the collision is caught inside the
    block, the allocator sleeps one second, and the block is left without
    an exception, so the commit protocol goes on to [git push]: the calls
    of the turn are rev-parse, the exclusive creation, the sleep and the
    push. When that push succeeds nothing is reset, nothing was created or
    staged, the engine is unchanged, and the loop takes its next turn with
    a name made from the next clock reading. Whatever happens,
    [open_instance_ledger] never raises [FileExistsError]. *)
Theorem allocator_collision (s : State) :
  let w := world s in
  path_exists w (trial_path w) = true ->
  fails w (length (calls w)) = false ->
  fails w (length (calls w) + 3) = false ->
  (exists s',
      open_instance_ledger_turn s = (Ok Continue, s')
      /\ calls (world s')
         = (calls w ++ [git_rev_parse; OpenX (trial_path w); Sleep 1;
                        git_push])%list
      /\ HEAD (world s') = HEAD w
      /\ local_changes (world s') = local_changes w
      /\ self s' = self s /\ heap s' = heap s
      /\ trial_name (world s')
         = hostname w +:+ "_"
             +:+ datetime_str (as_aware (clock w (S (ticks w))))
             +:+ ".beancount"
      /\ (instance_ledger_name (self s) = None ->
          forall fuel, open_instance_ledger_loop (S fuel) s
                       = open_instance_ledger_loop fuel s'))
  /\ (forall fuel r s',
         open_instance_ledger fuel s = Some (r, s') -> is_collision r = false).
Proof.
  intros w Hex H0 H3. split.
  - pose proof (collision_turn s Hex H0 H3) as Hturn. fold w in Hturn.
    eexists. split; [exact Hturn|].
    cbn [world set_world w_log w_tick calls HEAD local_changes self heap].
    split; [rewrite <- !app_assoc; reflexivity|].
    repeat (split; [reflexivity|]).
    intros Hnone fuel. cbn [open_instance_ledger_loop].
    rewrite Hnone, Hturn. reflexivity.
  - intros fuel r s'. apply collision_never_surfaces.
Qed.

(** A first candidate that is taken and a second one that is free: the
    turn of the first ends with a push, and two turns allocate. *)
Lemma allocator_collision_witness :
  path_exists (world (example_unallocated never))
    (trial_path (world (example_unallocated never))) = true
  /\ (exists s',
         open_instance_ledger_turn (example_unallocated never)
         = (Ok Continue, s')
         /\ calls (world s')
            = [git_rev_parse; OpenX example_taken; Sleep 1; git_push])
  /\ exists s',
       open_instance_ledger 2 (example_unallocated never)
       = Some (Ok "/srv/bartab/ledger/tap_2021-06-15 12:30:01+00:00.beancount",
               s').
Proof.
  split; [reflexivity|].
  destruct (allocator_collision (example_unallocated never)
              eq_refl eq_refl eq_refl) as [(s' & Ht & Hc & _) _].
  split.
  - exists s'. split; [exact Ht|exact Hc].
  - eexists. vm_compute. reflexivity.
Defined.

(** C9 as stated fails: in the turn whose candidate is taken, [git push]
    is run after the failed creation and the sleep. *)
Lemma push_after_collision :
  let s := example_unallocated never in
  path_exists (world s) (trial_path (world s)) = true
  /\ fst (open_instance_ledger_turn s) = Ok Continue
  /\ calls (world (snd (open_instance_ledger_turn s)))
     = [git_rev_parse; OpenX example_taken; Sleep 1; git_push]
  /\ In git_push (calls (world (snd (open_instance_ledger_turn s)))).
Proof.
  cbv zeta. split; [reflexivity|]. split; [vm_compute; reflexivity|].
  split; [vm_compute; reflexivity|]. vm_compute. tauto.
Qed.

(** * Further properties of the code *)

(** ** Prices *)


Lemma pow10_pos k : 0 < 10 ^ k \/ k < 0.
Proof. destruct (Z_lt_le_dec k 0); [right; lia|left; apply Z.pow_pos_nonneg; lia]. Qed.







Section Prices.
Variable Decimal_of_str : string -> option Decimal.




Lemma subscript_payback_cases definition :
  (exists pb, subscript definition "payback" = Ok pb)
  \/ (exists e, subscript definition "payback" = Raise e).
Proof. destruct (subscript definition "payback"); eauto. Qed.







End Prices.





(** ** Members *)

Lemma split_colon_length s : length (split_colon s) = S (count_colons s).
Proof.
  induction s as [|c s IH]; [reflexivity|]. cbn [split_colon count_colons].
  destruct (Ascii.eqb c ":"); cbn [length].
  - rewrite IH. reflexivity.
  - destruct (split_colon s) as [|h t]; [discriminate IH|]. cbn in *. lia.
Qed.

Lemma split_colon_parts s :
  Forall (fun part => count_colons part = O) (split_colon s).
Proof.
  induction s as [|c s IH]; [repeat constructor|]. cbn [split_colon].
  destruct (Ascii.eqb c ":") eqn:Ec.
  - constructor; [reflexivity|exact IH].
  - destruct (split_colon s) as [|h t]; [repeat constructor; cbn; by rewrite Ec|].
    apply Forall_cons in IH as [Hh Ht]. constructor; [|exact Ht].
    cbn. rewrite Ec. exact Hh.
Qed.

Lemma split_colon_whole s : count_colons s = O -> split_colon s = [s].
Proof.
  induction s as [|c s IH]; [reflexivity|]. cbn [split_colon count_colons].
  destruct (Ascii.eqb c ":"); [discriminate|]. cbn [Nat.add].
  intros H. rewrite (IH H). reflexivity.
Qed.

Lemma split_colon_last s :
  (0 < count_colons s)%nat ->
  exists parent, s = parent +:+ ":" +:+ List.last (split_colon s) EmptyString.
Proof.
  induction s as [|c s IH]; [cbn; lia|]. cbn [split_colon count_colons].
  pose proof (split_colon_length s) as Hlen.
  destruct (Ascii.eqb c ":") eqn:Ec.
  - apply Ascii.eqb_eq in Ec as ->. intros _.
    destruct (split_colon s) as [|h t] eqn:Es; [discriminate Hlen|].
    change (List.last ("" :: h :: t) "") with (List.last (h :: t) "").
    destruct (count_colons s) as [|n] eqn:Hc.
    + rewrite (split_colon_whole s Hc) in Es. injection Es as <- <-.
      exists "". reflexivity.
    + destruct IH as [parent Hp]; [lia|]. exists (String ":" parent).
      change (String ":" s
              = String ":" (parent +:+ ":" +:+ List.last (h :: t) "")).
      f_equal. exact Hp.
  - cbn [Nat.add]. intros Hpos. destruct IH as [parent Hp]; [exact Hpos|].
    destruct (split_colon s) as [|h t] eqn:Es; [discriminate Hlen|].
    destruct t as [|h2 t]; [cbn in Hlen; lia|].
    exists (String c parent).
    change (String c s
            = String c (parent +:+ ":" +:+ List.last (h :: h2 :: t) "")).
    f_equal. exact Hp.
Qed.

Lemma last_Forall {A} (P : A -> Prop) l d :
  Forall P l -> l <> [] -> P (List.last l d).
Proof.
  induction l as [|x l IH]; [congruence|]. intros H _.
  apply Forall_cons in H as [Hx Hl].
  destruct l as [|y l]; [exact Hx|].
  change (P (List.last (y :: l) d)). apply IH; [exact Hl|discriminate].
Qed.

(** X5. [Member.__init__] accepts the cash account and the accounts of
    exactly four components, and nothing else. The member keeps the
    account it was given; the cash account is named [--cash--] and
    displayed as [--CASH--]; any other member is named and displayed by the
    last component of its account, which holds no colon. *)
Theorem Member_init_characterised (acct : string) :
  (is_Ok (Member_init acct) = true
   <-> acct = CASH_ACCT \/ count_colons acct = 3%nat)
  /\ (forall m,
        Member_init acct = Ok m ->
        account m = acct
        /\ (acct = CASH_ACCT ->
            internal_name m = "--cash--" /\ display_name m = "--CASH--")
        /\ (acct <> CASH_ACCT ->
            display_name m = internal_name m
            /\ count_colons (internal_name m) = O
            /\ exists parent, acct = parent +:+ ":" +:+ internal_name m)).
Proof.
  unfold Member_init. rewrite split_colon_length.
  destruct (String.eqb acct "Assets:Cash:Bar") eqn:Ecash.
  - apply String.eqb_eq in Ecash. split; [split; auto|].
    intros m [= <-]. cbn. split; [reflexivity|]. split; [auto|]. intros H. contradiction.
  - apply String.eqb_neq in Ecash.
    destruct (S (count_colons acct) =? 4)%nat eqn:E4; cbn [negb].
    + apply Nat.eqb_eq in E4. split; [split; [right; lia|reflexivity]|].
      intros m [= <-]. cbn. split; [reflexivity|]. split; [intros; contradiction|].
      intros _. split; [reflexivity|]. split.
      * apply last_Forall; [apply split_colon_parts|].
        pose proof (split_colon_length acct) as Hlen.
        destruct (split_colon acct); [discriminate Hlen|discriminate].
      * apply split_colon_last. lia.
    + split; [|discriminate]. split; [discriminate|].
      apply Nat.eqb_neq in E4. intros [H|H]; [contradiction|lia].
Qed.

(** ** The postings of a purchase *)





Lemma dict_get_None {V} k (d : list (string * V)) :
  dict_get k d = None <-> k ∉ d.*1.
Proof.
  induction d as [|[k0 v0] d IH]; cbn.
  - split; [intros _; apply not_elem_of_nil|reflexivity].
  - rewrite not_elem_of_cons. destruct (String.eqb k k0) eqn:E.
    + apply String.eqb_eq in E. split; [discriminate|]. intros [H _]. contradiction.
    + apply String.eqb_neq in E. rewrite IH. tauto.
Qed.









(** ** Applying a transaction to the balances *)

Lemma directory_ok_update raw h l m inv inv' :
  directory_ok raw h ->
  h !! l = Some m -> balance m = BalInventory inv ->
  directory_ok raw (<[l := with_balance m (BalInventory inv')]> h).
Proof.
  intros Hdir Hm Hb a l' Hl'. specialize (Hdir a l' Hl'). cbn in Hdir.
  unfold entry_ok in *.
  destruct (decide (l = l')) as [<-|Hne].
  - rewrite list_lookup_insert_eq by (eapply lookup_lt_Some; eauto).
    rewrite Hm, Hb in Hdir. cbn. exact Hdir.
  - rewrite list_lookup_insert_ne by done. exact Hdir.
Qed.

Lemma directory_ok_injective raw h a a' l :
  directory_ok raw h -> raw !! a = Some l -> raw !! a' = Some l -> a = a'.
Proof.
  intros Hdir H1 H2.
  destruct (entry_ok_inv _ _ _ (Hdir _ _ H1)) as (m & inv & Hm & Ha & _).
  destruct (entry_ok_inv _ _ _ (Hdir _ _ H2)) as (m' & inv' & Hm' & Ha' & _).
  congruence.
Qed.

Lemma apply_postings_spec ps : forall s raw,
  accounts_raw (self s) = Assigned raw ->
  directory_ok raw (heap s) ->
  exists s',
    apply_postings ps s = (Ok tt, s')
    /\ self s' = self s /\ world s' = world s
    /\ directory_ok raw (heap s')
    /\ (forall a l c, raw !! a = Some l ->
          (units_at (heap s') l c
           == units_at (heap s) l c + account_sum a c ps)%Q)
    /\ (forall l, untouched raw ps l -> heap s' !! l = heap s !! l).
Proof.
  induction ps as [|p ps IH]; intros s raw Hraw Hdir.
  - exists s. cbn [apply_postings account_sum]. unfold ret.
    repeat split; try assumption. intros; ring.
  - cbn [apply_postings].
    unfold bind at 1, read_accounts_raw at 1, bind at 1, get_self at 1.
    rewrite Hraw. unfold ret at 1. unfold bind at 1.
    destruct (raw !! bcdata.account p) as [lp|] eqn:Hlp.
    + destruct (entry_ok_inv _ _ _ (Hdir _ _ Hlp)) as (m & inv & Hm & Ha & Hb).
      rewrite (member_add_amount_ok s lp m inv _ Hm Hb).
      set (s1 := set_heap _ s).
      destruct (IH s1 raw) as (s' & Happ & Hself & Hworld & Hdir' & Hunits & Hframe).
      { exact Hraw. }
      { unfold s1. cbn [heap set_heap]. eapply directory_ok_update; eauto. }
      exists s'. split; [exact Happ|]. split; [exact Hself|]. split; [exact Hworld|].
      split; [exact Hdir'|]. split.
      * intros a l c Hl. rewrite (Hunits a l c Hl). cbn [account_sum].
        unfold s1, units_at. cbn [heap set_heap].
        destruct (decide (lp = l)) as [<-|Hne].
        -- rewrite list_lookup_insert_eq by (eapply lookup_lt_Some; eauto).
           rewrite Hm, Hb. cbn [balance with_balance].
           rewrite add_amount_units.
           assert (a = bcdata.account p)
             by (eapply directory_ok_injective; eauto).
           subst a. unfold posting_to, posting_in.
           destruct (decide (bcdata.account p = bcdata.account p)); [|done].
           ring.
        -- rewrite list_lookup_insert_ne by done.
           unfold posting_to.
           destruct (decide (bcdata.account p = a)) as [<-|_]; [congruence|]. ring.
      * intros l Hl. apply Forall_cons in Hl as [Hp Hl].
        rewrite (Hframe l Hl). unfold s1. cbn [heap set_heap].
        apply list_lookup_insert_ne. intros <-. apply Hp. exact Hlp.
    + unfold ret at 1.
      destruct (IH s raw Hraw Hdir) as (s' & Happ & Hself & Hworld & Hdir' & Hunits & Hframe).
      exists s'. split; [exact Happ|]. split; [exact Hself|]. split; [exact Hworld|].
      split; [exact Hdir'|]. split.
      * intros a l c Hl. rewrite (Hunits a l c Hl). cbn [account_sum].
        unfold posting_to.
        destruct (decide (bcdata.account p = a)) as [<-|_]; [congruence|]. ring.
      * intros l Hl. apply Forall_cons in Hl as [_ Hl]. exact (Hframe l Hl).
Qed.

Section Fold.
Variable infer_tolerances : list bcdata.Posting -> gmap string Decimal.

Lemma apply_txn_folds_postings (txn : bcdata.Transaction) (s sc : State)
    (raw : gmap string nat) :
  accounts_raw (self s) = Assigned raw ->
  directory_ok raw (heap s) ->
  is_small (compute_residual (bcdata.postings txn))
    (infer_tolerances (bcdata.postings txn)) = true ->
  git_transaction (append_entry txn) s = (Ok tt, sc) ->
  exists s',
    apply_txn infer_tolerances txn s = (Ok tt, s')
    /\ self s' = self s /\ world s' = world sc
    /\ (forall a l c, raw !! a = Some l ->
          (units_at (heap s') l c
           == units_at (heap s) l c + account_sum a c (bcdata.postings txn))%Q)
    /\ (forall l, untouched raw (bcdata.postings txn) l ->
                  heap s' !! l = heap s !! l).
Proof.
  intros Hraw Hdir Hsmall Hcommit.
  destruct (commit_touches_world_only _ _ _ _ Hcommit) as [Hself Hheap].
  destruct (apply_postings_spec (bcdata.postings txn) sc raw)
    as (s' & Happ & Hself' & Hworld & _ & Hunits & Hframe).
  { rewrite Hself. exact Hraw. }
  { rewrite Hheap. exact Hdir. }
  exists s'. unfold apply_txn. rewrite Hsmall. cbn [negb].
  unfold bind. rewrite Hcommit. split; [exact Happ|].
  split; [congruence|]. split; [exact Hworld|].
  rewrite <- Hheap. split; assumption.
Qed.


End Fold.








(** ** The calls of a commit *)

Lemma effect_fails c w : fails (effect c w) = fails w.
Proof.
  destruct c as [args|p|p|p t|n]; cbn; try reflexivity.
  - repeat (match goal with
            | |- context [match ?x with _ => _ end] => destruct x
            end; try reflexivity).
  - destruct (path_exists w p); reflexivity.
Qed.

Lemma effect_calls c w : calls (effect c w) = calls w.
Proof.
  destruct c as [args|p|p|p t|n]; cbn; try reflexivity.
  - repeat (match goal with
            | |- context [match ?x with _ => _ end] => destruct x
            end; try reflexivity).
  - destruct (path_exists w p); reflexivity.
Qed.

Lemma calls_after_call c s :
  calls (world (after_call c s)) = (calls (world s) ++ [c])%list.
Proof. unfold after_call. cbn. rewrite effect_calls. reflexivity. Qed.

Lemma calls_succeed_next n s : calls_succeed (S n) s -> next_call_fails s = false.
Proof.
  intros H. unfold next_call_fails. specialize (H 0%nat ltac:(lia)).
  rewrite Nat.add_0_r in H. exact H.
Qed.

Lemma calls_succeed_after n c s :
  calls_succeed (S n) s -> calls_succeed n (after_call c s).
Proof.
  intros H k Hk. rewrite calls_after_call. unfold after_call. cbn.
  rewrite effect_fails. cbn. rewrite length_app. cbn.
  replace (length (calls (world s)) + 1 + k)%nat
    with (length (calls (world s)) + S k)%nat by lia.
  apply H. lia.
Qed.

Lemma calls_succeed_ext n s s' :
  fails (world s') = fails (world s) ->
  calls (world s') = calls (world s) ->
  calls_succeed n s -> calls_succeed n s'.
Proof. intros Hf Hc H k Hk. rewrite Hf, Hc. apply H, Hk. Qed.

Lemma call_ok c s :
  next_call_fails s = false ->
  (forall p, c = OpenX p -> path_exists (world s) p = false) ->
  (forall n, c <> Sleep n) ->
  call c s = (Ok (output c (world s)), after_call c s).
Proof.
  unfold next_call_fails, call, perform, outcome, after_call. intros Hf Hx Hs.
  destruct c as [args|p|p|p t|n].
  - rewrite Hf. reflexivity.
  - rewrite (Hx p eq_refl), Hf. reflexivity.
  - rewrite Hf. reflexivity.
  - rewrite Hf. reflexivity.
  - destruct (Hs n eq_refl).
Qed.


Lemma effect_cases c w :
  (exists rev, c = git_reset rev /\ effect c w = w_reset rev w)
  \/ (is_reset c = false
      /\ (effect c w = w \/ exists ch, effect c w = w_change ch w)).
Proof.
  destruct c as [args|p|p|p t|n]; cbn; eauto.
  - repeat (match goal with
            | |- context [match ?x with _ => _ end] => destruct x
            end; unfold git_reset; eauto).
  - destruct (path_exists w p); eauto.
Qed.

Lemma after_call_keeps c x :
  is_reset c = false ->
  HEAD (world (after_call c x)) = HEAD (world x)
  /\ present (world (after_call c x)) = present (world x)
  /\ stdout (world (after_call c x)) = stdout (world x)
  /\ (forall ch, In ch (local_changes (world x)) ->
                 In ch (local_changes (world (after_call c x))))
  /\ self (after_call c x) = self x /\ heap (after_call c x) = heap x.
Proof.
  intros Hc. unfold after_call. cbn [world set_world self heap].
  destruct (effect_cases c (w_log c (world x)))
    as [(rev & -> & _)|(_ & [->|(ch & ->)])]; [discriminate| |]; cbn;
    repeat split; auto. intros ch' H. apply in_app_iff. auto.
Qed.


(** X12. When [git rev-parse HEAD] fails, [git_transaction] raises its
    [CalledProcessError] at once: the block is not run, nothing is pushed
    and nothing is reset. *)
Theorem git_transaction_head_unknown {A} (block : M A) (s : State) :
  next_call_fails s = true ->
  git_transaction block s
  = (Raise (CalledProcessError ["git"; "rev-parse"; "HEAD"]),
     after_failed_call git_rev_parse s).
Proof.
  intros H. rewrite git_transaction_unfold. unfold subprocess_check_output.
  rewrite (call_Run_fail _ _ H). reflexivity.
Qed.


Lemma git_transaction_head_unknown_witness :
  git_transaction (ret tt) (example_state (only 0))
  = (Raise (CalledProcessError ["git"; "rev-parse"; "HEAD"]),
     after_failed_call git_rev_parse (example_state (only 0))).
Proof.
  apply (git_transaction_head_unknown (ret tt) (example_state (only 0))).
  reflexivity.
Defined.
(** ** The allocator *)

Lemma allocation_block (s : State) :
  let w := world s in
  path_exists w (trial_path w) = false ->
  calls_succeed 6 s ->
  exists sb,
    open_instance_ledger_turn s
    = match subprocess_run ["git"; "push"] sb with
      | (Ok _, sp) => (Ok FallThrough, sp)
      | (Raise e, sp) => rollback (HEAD w) e sp
      end
    /\ calls (world sb) = (calls w ++ allocation_calls w)%list
    /\ fails (world sb) = fails w
    /\ HEAD (world sb) = HEAD w
    /\ present (world sb) = present w
    /\ In (Created (trial_path w)) (local_changes (world sb))
    /\ stdout (world sb)
       = (stdout w ++ [Line ("Got instance ledger " +:+ trial_path w)])%list
    /\ self sb = with_ledger_name (Some (trial_path w)) (self s)
    /\ heap sb = heap s.
Proof.
  intros w Hfree H6.
  unfold open_instance_ledger_turn, bind at 1, get_world.
  unfold bind at 1, now_utc, bind at 1, utcnow, ret at 1.
  fold w.
  change (path_join (path_join (DATA_DIR w) "ledger")
            (hostname w +:+ "_" +:+ datetime_str (as_aware (clock w (ticks w)))
               +:+ ".beancount"))
    with (trial_path w).
  change (path_join (path_join (DATA_DIR w) "ledger") "dynamic.beancount")
    with (dynamic_path w).
  change (hostname w +:+ "_" +:+ datetime_str (as_aware (clock w (ticks w)))
               +:+ ".beancount") with (trial_name w).
  set (s0 := set_world (w_tick w) s).
  assert (H6' : calls_succeed 6 s0)
    by (eapply calls_succeed_ext; [..|exact H6]; reflexivity).
  rewrite git_transaction_unfold. unfold subprocess_check_output.
  rewrite (call_Run_ok _ _ (calls_succeed_next _ _ H6')).
  pose proof (calls_succeed_after _ git_rev_parse _ H6') as H5.
  fold git_rev_parse. set (s1 := after_call git_rev_parse s0) in *.
  change (output git_rev_parse (world s0)) with (HEAD w).
  unfold try_except_FileExistsError, try_except.
  unfold bind at 1, bind at 1.
  rewrite (call_ok (OpenX (trial_path w)) s1 (calls_succeed_next _ _ H5));
    [|intros p [= <-]; exact Hfree|intros; discriminate].
  pose proof (calls_succeed_after _ (OpenX (trial_path w)) _ H5) as H4.
  set (s2 := after_call (OpenX (trial_path w)) s1) in *.
  unfold bind at 1, print at 1, print_text at 1.
  unfold bind at 1, set_instance_ledger_name at 1, bind at 1, get_self at 1,
    put_self at 1.
  unfold ret at 1.
  set (s3 := set_self _ _).
  assert (H4' : calls_succeed 4 s3)
    by (eapply calls_succeed_ext; [..|exact H4]; reflexivity).
  unfold bind at 1.
  rewrite (call_ok (OpenA (dynamic_path w)) s3 (calls_succeed_next _ _ H4'))
    by (intros; discriminate).
  pose proof (calls_succeed_after _ (OpenA (dynamic_path w)) _ H4') as H3.
  set (s4 := after_call (OpenA (dynamic_path w)) s3) in *.
  unfold bind at 1.
  rewrite (call_ok (WriteTo (dynamic_path w) (IncludeLine (trial_name w))) s4
             (calls_succeed_next _ _ H3)) by (intros; discriminate).
  pose proof (calls_succeed_after _
                (WriteTo (dynamic_path w) (IncludeLine (trial_name w))) _ H3)
    as H2.
  set (s5 := after_call (WriteTo _ _) s4) in *.
  unfold bind at 1, add_file.
  rewrite (subprocess_run_ok _ _ (calls_succeed_next _ _ H2)).
  pose proof (calls_succeed_after _
                (git_add (path_join "ledger" (trial_name w))) _ H2) as H1.
  fold (git_add (path_join "ledger" (trial_name w))).
  set (s6 := after_call (git_add _) s5) in *.
  unfold bind at 1.
  rewrite (subprocess_run_ok _ _ (calls_succeed_next _ _ H1)).
  fold (git_add (path_join "ledger" "dynamic.beancount")).
  set (s7 := after_call (git_add _) s6) in *.
  unfold ret at 1.
  exists s7. split; [reflexivity|].
  split; [subst s7 s6 s5 s4 s3 s2 s1 s0;
          repeat first [rewrite calls_after_call
                       |progress cbn [world set_self set_world w_tick w_print calls]];
          rewrite <- !app_assoc; reflexivity|].
  assert (Hfl : forall c x, fails (world (after_call c x)) = fails (world x))
    by (intros; unfold after_call; cbn; rewrite effect_fails; reflexivity).
  split; [subst s7 s6 s5 s4 s3 s2 s1 s0;
          repeat first [rewrite Hfl
                       |progress cbn [world set_self set_world w_tick w_print fails]];
          reflexivity|].
  destruct (after_call_keeps (git_add (path_join "ledger" "dynamic.beancount"))
              s6 eq_refl) as (K71 & K72 & K73 & K74 & K75 & K76).
  destruct (after_call_keeps (git_add (path_join "ledger" (trial_name w)))
              s5 eq_refl) as (K61 & K62 & K63 & K64 & K65 & K66).
  destruct (after_call_keeps
              (WriteTo (dynamic_path w) (IncludeLine (trial_name w)))
              s4 eq_refl) as (K51 & K52 & K53 & K54 & K55 & K56).
  destruct (after_call_keeps (OpenA (dynamic_path w)) s3 eq_refl)
    as (K41 & K42 & K43 & K44 & K45 & K46).
  fold s4 in K41, K42, K43, K44, K45, K46.
  fold s5 in K51, K52, K53, K54, K55, K56.
  fold s6 in K61, K62, K63, K64, K65, K66.
  fold s7 in K71, K72, K73, K74, K75, K76.
  split; [rewrite K71, K61, K51, K41; reflexivity|].
  split; [rewrite K72, K62, K52, K42; reflexivity|].
  split; [apply K74, K64, K54, K44; subst s3 s2 s1 s0; cbn;
          apply in_app_iff; cbn; tauto|].
  split; [rewrite K73, K63, K53, K43; reflexivity|].
  split; [rewrite K75, K65, K55, K45; reflexivity|].
  rewrite K76, K66, K56, K46; reflexivity.
Qed.

Lemma loop_named fuel s n :
  instance_ledger_name (self s) = Some n ->
  open_instance_ledger_loop fuel s = Some (Ok tt, s).
Proof. intros H. destruct fuel; cbn; rewrite H; reflexivity. Qed.

Lemma open_named fuel s n :
  instance_ledger (self s) = None ->
  instance_ledger_name (self s) = Some n ->
  next_call_fails s = false ->
  open_instance_ledger fuel s
  = Some (Ok n, set_self (with_ledger (Some n) (self s))
                  (after_call (OpenA n) s)).
Proof.
  intros Hh Hn Hf. unfold open_instance_ledger.
  rewrite Hh, (loop_named _ _ _ Hn), Hn.
  unfold bind at 1. rewrite (call_ok (OpenA n) s Hf) by (intros; discriminate).
  reflexivity.
Qed.

Lemma open_named_fails fuel s n :
  instance_ledger (self s) = None ->
  instance_ledger_name (self s) = Some n ->
  next_call_fails s = true ->
  open_instance_ledger fuel s
  = Some (Raise (OSError n), after_failed_call (OpenA n) s).
Proof.
  intros Hh Hn Hf. unfold open_instance_ledger.
  rewrite Hh, (loop_named _ _ _ Hn), Hn.
  unfold bind at 1, call, perform, outcome. unfold next_call_fails in Hf.
  rewrite Hf. reflexivity.
Qed.

(** X13. [open_instance_ledger] on an engine without an instance ledger,
    when the candidate name is free and no call fails: the calls are
    rev-parse, the exclusive creation, the append of the include line to
    [dynamic.beancount], the staging of both files, the push, and the
    opening of the new file for appending; the engine then holds the
    candidate as the name and as the handle of its ledger, and the rest of
    the engine is untouched. *)
Theorem open_instance_ledger_allocates (fuel : nat) (s : State) :
  let w := world s in
  instance_ledger (self s) = None ->
  instance_ledger_name (self s) = None ->
  path_exists w (trial_path w) = false ->
  calls_succeed 8 s ->
  exists s',
    open_instance_ledger (S fuel) s = Some (Ok (trial_path w), s')
    /\ instance_ledger_name (self s') = Some (trial_path w)
    /\ instance_ledger (self s') = Some (trial_path w)
    /\ accounts (self s') = accounts (self s)
    /\ accounts_raw (self s') = accounts_raw (self s)
    /\ products (self s') = products (self s)
    /\ heap s' = heap s
    /\ calls (world s')
       = (calls w ++ allocation_calls w
            ++ [git_push; OpenA (trial_path w)])%list
    /\ HEAD (world s') = HEAD w
    /\ path_exists (world s') (trial_path w) = true.
Proof.
  intros w Hh Hn Hfree H8.
  assert (H6 : calls_succeed 6 s) by (intros k Hk; apply H8; lia).
  destruct (allocation_block s Hfree H6)
    as (sb & Hturn & Hcalls & Hfails & Hhead & Hpres & Hin & Hout & Hself
        & Hheap).
  fold w in Hturn, Hcalls, Hfails, Hhead, Hpres, Hin, Hout.
  assert (Hpush : next_call_fails sb = false).
  { unfold next_call_fails. rewrite Hfails, Hcalls, length_app. cbn [length allocation_calls].
    apply H8. lia. }
  rewrite (subprocess_run_ok _ _ Hpush) in Hturn. fold git_push in Hturn.
  set (sp := after_call git_push sb) in *.
  destruct (after_call_keeps git_push sb eq_refl)
    as (K1 & K2 & K3 & K4 & K5 & K6). fold sp in K1, K2, K3, K4, K5, K6.
  assert (Hopen : next_call_fails sp = false).
  { unfold next_call_fails. subst sp. rewrite calls_after_call.
    unfold after_call. cbn [world set_world]. rewrite effect_fails.
    cbn [fails w_log]. rewrite Hfails, Hcalls, !length_app.
    cbn [length allocation_calls].
    replace (length (calls w) + 6 + 1)%nat with (length (calls w) + 7)%nat
      by lia.
    apply H8. lia. }
  assert (Hnp : instance_ledger_name (self sp) = Some (trial_path w))
    by (rewrite K5, Hself; reflexivity).
  assert (Hhp : instance_ledger (self sp) = None)
    by (rewrite K5, Hself; exact Hh).
  eexists. split.
  { unfold open_instance_ledger. rewrite Hh.
    cbn [open_instance_ledger_loop]. rewrite Hn, Hturn.
    rewrite (loop_named _ _ _ Hnp), Hnp.
    unfold bind at 1.
    rewrite (call_ok (OpenA (trial_path w)) sp Hopen) by (intros; discriminate).
    reflexivity. }
  destruct (after_call_keeps (OpenA (trial_path w)) sp eq_refl)
    as (L1 & L2 & L3 & L4 & L5 & L6).
  cbn [self set_self heap world instance_ledger_name instance_ledger accounts
       accounts_raw products].
  rewrite L5, K5, Hself. cbn [with_ledger_name instance_ledger_name accounts
                               accounts_raw products].
  repeat (split; [reflexivity|]).
  split; [rewrite L6, K6; exact Hheap|].
  split.
  { rewrite calls_after_call. subst sp. rewrite calls_after_call, Hcalls.
    rewrite <- !app_assoc. reflexivity. }
  split; [rewrite L1, K1; exact Hhead|].
  unfold path_exists. apply orb_true_iff. right.
  apply existsb_exists. exists (Created (trial_path w)).
  split; [apply L4, K4, Hin|apply String.eqb_refl].
Qed.


(** X15. Closing the ledger and opening it again, once it has its name,
    costs a single [open] for appending and no git command; the handle is
    on the same name, and nothing else of the engine changes. *)
Theorem reopen_instance_ledger (fuel : nat) (s : State) (n : string) :
  instance_ledger_name (self s) = Some n ->
  next_call_fails s = false ->
  exists s1 s',
    close_instance_ledger s = (Ok tt, s1)
    /\ world s1 = world s /\ heap s1 = heap s
    /\ instance_ledger (self s1) = None
    /\ open_instance_ledger fuel s1 = Some (Ok n, s')
    /\ calls (world s') = (calls (world s) ++ [OpenA n])%list
    /\ self s' = with_ledger (Some n) (self s)
    /\ heap s' = heap s.
Proof.
  intros Hn Hf.
  exists (set_self (with_ledger None (self s)) s). eexists.
  split.
  { unfold close_instance_ledger, bind, get_self, set_instance_ledger, put_self.
    destruct (instance_ledger (self s)) eqn:E; [reflexivity|].
    unfold ret. f_equal. destruct s as [w [a r p nm h] hp]. cbn in *.
    subst h. reflexivity. }
  repeat (split; [reflexivity|]).
  split; [apply open_named; [reflexivity|exact Hn|exact Hf]|].
  split; [cbn [world set_self]; rewrite calls_after_call; reflexivity|].
  split; reflexivity.
Qed.

Lemma open_instance_ledger_allocates_witness :
  exists s',
    open_instance_ledger 1 (example_free never) = Some (Ok example_taken, s')
    /\ instance_ledger_name (self s') = Some example_taken
    /\ instance_ledger (self s') = Some example_taken
    /\ calls (world s')
       = (allocation_calls (world (example_free never))
            ++ [git_push; OpenA example_taken])%list.
Proof.
  destruct (open_instance_ledger_allocates 0 (example_free never))
    as (s' & H1 & H2 & H3 & _ & _ & _ & _ & H8 & _).
  - reflexivity.
  - reflexivity.
  - reflexivity.
  - intros k _. reflexivity.
  - exists s'. split; [exact H1|]. split; [exact H2|]. split; [exact H3|].
    exact H8.
Defined.


Lemma reopen_instance_ledger_witness :
  exists s1 s',
    close_instance_ledger (example_state never) = (Ok tt, s1)
    /\ open_instance_ledger 0 s1 = Some (Ok example_ledger, s')
    /\ calls (world s') = [OpenA example_ledger]
    /\ self s' = example_self.
Proof.
  destruct (reopen_instance_ledger 0 (example_state never) example_ledger)
    as (s1 & s' & H1 & _ & _ & _ & H5 & H6 & H7 & _).
  - reflexivity.
  - reflexivity.
  - exists s1, s'. split; [exact H1|]. split; [exact H5|].
    split; [exact H6|exact H7].
Defined.

(** ** The assertion and the happy path of [apply_txn] *)












Lemma apply_postings_frame ps : forall s r s',
  apply_postings ps s = (r, s') -> world s' = world s /\ self s' = self s.
Proof.
  induction ps as [|p ps IH]; intros s r s'; cbn [apply_postings].
  - intros [= <- <-]. split; reflexivity.
  - unfold bind at 1, bind at 1, read_accounts_raw at 1, bind at 1,
      get_self at 1.
    destruct (accounts_raw (self s)) as [|raw];
      [intros [= <- <-]; split; reflexivity|].
    unfold ret at 1.
    destruct (raw !! bcdata.account p) as [l|].
    + unfold member_add_amount.
      destruct (heap s !! l) as [m|].
      * destruct (balance m); [intros [= <- <-]; split; reflexivity|].
        intros H. apply IH in H. exact H.
      * apply IH.
    + unfold ret at 1. apply IH.
Qed.

Section Assertion.
Variable infer_tolerances : list bcdata.Posting -> gmap string Decimal.



End Assertion.


(** ** The directory that [load_data] builds *)

Lemma opened_Open a meta rest :
  opened (bcdata.Open a meta :: rest) = a :: opened rest.
Proof. reflexivity. Qed.

Lemma filed_directory_ok base balances acc raw h :
  filed base balances acc raw h -> directory_ok raw h.
Proof.
  intros [Hraw _] a l Hl. cbn.
  destruct (Hraw a l Hl) as (_ & m & bal & Hm & Ha & _ & _ & Hb).
  unfold entry_ok. rewrite Hm, Hb, Ha, String.eqb_refl. reflexivity.
Qed.

Lemma load_accounts_filed base entries balances :
  forall acc raw s acc' raw' s',
    load_accounts entries balances acc raw s = (Ok (acc', raw'), s') ->
    (base <= length (heap s))%nat ->
    filed base balances acc raw (heap s) ->
    filed base balances acc' raw' (heap s')
    /\ (forall a, is_Some (raw' !! a) <->
                  is_Some (raw !! a)
                  \/ (a ∈ opened entries /\ is_Some (balances !! a))).
Proof.
  induction entries as [|[entry_account entry_meta|] rest IH];
    intros acc raw s acc' raw' s' H Hbase Hf; cbn [load_accounts] in H.
  - injection H as <- <- <-. split; [exact Hf|]. intros a. cbn.
    split; [auto|]. intros [?|[Hin _]]; [assumption|]. by apply elem_of_nil in Hin.
  - destruct (balances !! entry_account) as [bal|] eqn:Hbal.
    + unfold bind at 1, lift in H.
      destruct (Member_init entry_account) as [m|e] eqn:Hm; [|discriminate].
      unfold bind at 1, alloc in H.
      pose proof (Member_init_account _ _ Hm) as Hacct.
      set (m' := with_balance _ _) in H.
      assert (Hacct' : account m' = entry_account)
        by (unfold m'; destruct (dict_get _ _); exact Hacct).
      assert (Hname' : internal_name m' = internal_name m)
        by (unfold m'; destruct (dict_get _ _); reflexivity).
      apply (IH _ _ _ _ _ _) in H as [Hf' Hdom].
      * split; [exact Hf'|]. intros a. rewrite Hdom, opened_Open.
        rewrite Hacct'. rewrite elem_of_cons.
        destruct (decide (a = entry_account)) as [->|Hne].
        -- rewrite lookup_insert_eq. split; [intros _|intros _; left; eauto].
           right. split; [by left|eauto].
        -- rewrite lookup_insert_ne by done. tauto.
      * cbn [heap set_heap]. rewrite length_app. lia.
      * cbn [heap set_heap]. destruct Hf as [Hraw Hacc]. split.
        -- intros a l. rewrite Hacct'.
           destruct (decide (a = entry_account)) as [->|Hne].
           ++ rewrite lookup_insert_eq. intros [= <-]. split; [exact Hbase|].
              exists m', bal. rewrite lookup_app_r by lia.
              rewrite Nat.sub_diag. repeat split; try assumption.
              unfold internal_name_of. rewrite Hm, Hname'. reflexivity.
           ++ rewrite lookup_insert_ne by done. intros Hl.
              destruct (Hraw a l Hl) as (Hb & m0 & bal0 & H0 & Hrest).
              split; [exact Hb|]. exists m0, bal0.
              split; [by apply lookup_app_l_Some|exact Hrest].
        -- intros k l.
           destruct (decide (k = internal_name m')) as [->|Hne].
           ++ rewrite lookup_insert_eq. intros [= <-]. exists m'.
              rewrite lookup_app_r by lia. rewrite Nat.sub_diag.
              split; [reflexivity|]. split; [reflexivity|].
              apply lookup_insert_eq.
           ++ rewrite lookup_insert_ne by done. intros Hl.
              destruct (Hacc k l Hl) as (m0 & H0 & Hk & Hr).
              exists m0. split; [by apply lookup_app_l_Some|].
              split; [exact Hk|]. rewrite lookup_insert_ne; [exact Hr|].
              intros Heq. apply Hne.
              destruct (Hraw _ _ Hr) as (_ & m1 & bal1 & H1 & _ & Hin & _).
              rewrite H0 in H1. injection H1 as <-.
              rewrite <- Heq, Hacct' in Hin. unfold internal_name_of in Hin.
              rewrite Hm in Hin. injection Hin as Hin.
              rewrite <- Hk, Hname'. symmetry. exact Hin.
    + unfold bind at 1, print, print_text in H.
      apply (IH _ _ _ _ _ _) in H as [Hf' Hdom]; [|exact Hbase|exact Hf].
      split; [exact Hf'|]. intros a. rewrite Hdom, opened_Open, elem_of_cons.
      split; [tauto|]. intros [?|[[->|?] Hs]]; [tauto| |tauto].
      rewrite Hbal in Hs. by destruct Hs.
  - apply (IH _ _ _ _ _ _) in H; [|exact Hbase|exact Hf]. exact H.
Qed.

Lemma load_accounts_calls entries balances :
  forall acc raw s r s',
    load_accounts entries balances acc raw s = (r, s') ->
    calls (world s') = calls (world s)
    /\ HEAD (world s') = HEAD (world s)
    /\ local_changes (world s') = local_changes (world s)
    /\ fails (world s') = fails (world s).
Proof.
  induction entries as [|[entry_account entry_meta|] rest IH];
    intros acc raw s r s' H; cbn [load_accounts] in H.
  - injection H as <- <-. auto.
  - destruct (balances !! entry_account) as [bal|] eqn:Hbal.
    + unfold bind at 1, lift in H.
      destruct (Member_init entry_account) as [m|e] eqn:Hm.
      * unfold bind at 1, alloc in H. apply IH in H. exact H.
      * injection H as <- <-. auto.
    + unfold bind at 1, print, print_text in H.
      apply IH in H. exact H.
  - apply IH in H; assumption.
Qed.

Section Directory.
Variable Decimal_of_str : string -> option Decimal.

(** X16. A [load_data] that returns leaves the ledger name and handle and
    every existing object as they were and makes no external call. The new
    [accounts_raw] files exactly the accounts that the ledger opens and
    for which the query has a balance, each under a new object of that
    account, and satisfies what [apply_txn] needs of it; every entry of
    the new [accounts] is an object that [accounts_raw] files under its
    account, so that both dictionaries see the same balances. *)
Theorem load_data_directory (src : Sources) (s s' : State) :
  load_data Decimal_of_str src s = (Ok tt, s') ->
  exists acc raw,
    accounts (self s') = Assigned acc
    /\ accounts_raw (self s') = Assigned raw
    /\ instance_ledger_name (self s') = instance_ledger_name (self s)
    /\ instance_ledger (self s') = instance_ledger (self s)
    /\ calls (world s') = calls (world s)
    /\ heap s `prefix_of` heap s'
    /\ directory_ok raw (heap s')
    /\ (forall a, is_Some (raw !! a) <->
          a ∈ opened (ledger_data src)
          /\ is_Some (balances_of (query_rows src) !! a))
    /\ (forall a l, raw !! a = Some l ->
          (length (heap s) <= l)%nat
          /\ exists m, heap s' !! l = Some m /\ account m = a)
    /\ (forall k l, acc !! k = Some l ->
          exists m, heap s' !! l = Some m /\ internal_name m = k
                    /\ raw !! account m = Some l).
Proof.
  rewrite load_data_unfold.
  destruct (products_yml src) as [[| | | | |raws|]|e]; try discriminate.
  destruct (load_products Decimal_of_str raws ∅) as [prods|e]; [|discriminate].
  destruct (errors src); [|discriminate].
  destruct (load_accounts _ _ _ _ s) as [[[acc raw]|e] s1] eqn:E;
    [|discriminate].
  intros [= <-].
  destruct (load_accounts_frame _ _ _ _ _ _ _ E) as [Hself Hheap].
  destruct (load_accounts_calls _ _ _ _ _ _ _ E) as (Hcalls & _ & _).
  destruct (load_accounts_filed (length (heap s)) _ _ _ _ _ _ _ _ E)
    as [Hf Hdom].
  { lia. }
  { split; intros ? ?; rewrite lookup_empty; discriminate. }
  exists acc, raw. cbn [self set_self heap world accounts accounts_raw
                        instance_ledger_name instance_ledger].
  rewrite Hself.
  repeat (split; [first [reflexivity|assumption]|]).
  split; [eapply filed_directory_ok; exact Hf|].
  split.
  { intros a. rewrite Hdom, lookup_empty. split; [|tauto].
    intros [[? ?]|?]; [discriminate|assumption]. }
  destruct Hf as [Hraw Hacc]. split; [|exact Hacc].
  intros a l Hl. destruct (Hraw a l Hl) as (Hb & m & bal & Hm & Ha & _).
  split; [exact Hb|]. exists m. auto.
Qed.
End Directory.

Lemma load_data_directory_witness :
  exists acc raw,
    accounts_raw
      (self (snd (load_data no_parser example_sources (example_state never))))
    = Assigned raw
    /\ accounts
         (self (snd (load_data no_parser example_sources
                       (example_state never))))
       = Assigned acc
    /\ (forall a, is_Some (raw !! a) <->
          a ∈ opened (ledger_data example_sources)
          /\ is_Some (balances_of (query_rows example_sources) !! a))
    /\ (forall a l, raw !! a = Some l -> (2 <= l)%nat).
Proof.
  destruct (load_data_directory no_parser example_sources
              (example_state never)
              (snd (load_data no_parser example_sources (example_state never))))
    as (acc & raw & H1 & H2 & _ & _ & _ & _ & _ & H8 & H9 & _).
  - vm_compute. reflexivity.
  - exists acc, raw. split; [exact H2|]. split; [exact H1|].
    split; [exact H8|]. intros a l Hl. apply (H9 a l Hl).
Defined.

(** ** Pulling *)

Lemma with_ledger_name_id r : with_ledger_name (instance_ledger_name r) r = r.
Proof. destruct r; reflexivity. Qed.

Lemma with_ledger_id r : with_ledger (instance_ledger r) r = r.
Proof. destruct r; reflexivity. Qed.

Lemma renames_world_only {A} (m : M A) : world_only m -> renames m.
Proof.
  intros H s r s' E. apply H in E as [-> ->]. split; [reflexivity|].
  exists (instance_ledger_name (self s)). symmetry. apply with_ledger_name_id.
Qed.

Lemma renames_bind {A B} (m : M A) (k : A -> M B) :
  renames m -> (forall a, renames (k a)) -> renames (bind m k).
Proof.
  intros Hm Hk s r s'. unfold bind.
  destruct (m s) as [[a|e] s1] eqn:E; apply Hm in E as [E1 [n1 E2]].
  - intros H. apply Hk in H as [H1 [n2 H2]]. split; [congruence|].
    exists n2. rewrite H2, E2. reflexivity.
  - intros [= <- <-]. eauto.
Qed.

Lemma renames_try_except {A} (m : M A) h :
  renames m -> (forall e, renames (h e)) -> renames (try_except m h).
Proof.
  intros Hm Hh s r s'. unfold try_except.
  destruct (m s) as [[a|e] s1] eqn:E; apply Hm in E as [E1 [n1 E2]].
  - intros [= <- <-]. eauto.
  - intros H. apply Hh in H as [H1 [n2 H2]]. split; [congruence|].
    exists n2. rewrite H2, E2. reflexivity.
Qed.

Lemma renames_set_instance_ledger_name n : renames (set_instance_ledger_name n).
Proof.
  intros s r s'. unfold set_instance_ledger_name, bind, get_self, put_self.
  intros [= <- <-]. split; [reflexivity|]. exists n. reflexivity.
Qed.

Lemma renames_git_transaction {A} (block : M A) :
  renames block -> renames (git_transaction block).
Proof.
  intros Hb. unfold git_transaction.
  apply renames_bind; [apply renames_world_only, world_only_call|]. intros head.
  apply renames_try_except.
  - apply renames_bind; [exact Hb|]. intros v.
    apply renames_world_only.
    apply world_only_bind; [apply world_only_subprocess_run|].
    intros; apply world_only_ret.
  - intros e. apply renames_world_only.
    apply world_only_bind; [apply world_only_subprocess_run|].
    intros; apply world_only_raise.
Qed.

Lemma world_only_get_world : world_only get_world.
Proof. intros s r s' [= <- <-]. split; reflexivity. Qed.

Lemma world_only_now_utc : world_only now_utc.
Proof.
  intros s r s'. unfold now_utc, bind, utcnow, ret. intros [= <- <-].
  split; reflexivity.
Qed.

Lemma renames_turn : renames open_instance_ledger_turn.
Proof.
  unfold open_instance_ledger_turn.
  apply renames_bind; [apply renames_world_only, world_only_get_world|].
  intros w.
  apply renames_bind; [apply renames_world_only, world_only_now_utc|].
  intros now. apply renames_git_transaction.
  apply renames_bind.
  - unfold try_except_FileExistsError. apply renames_try_except.
    + apply renames_bind; [apply renames_world_only, world_only_call|].
      intros _.
      apply renames_bind; [apply renames_world_only, world_only_print_text|].
      intros _.
      apply renames_bind; [apply renames_set_instance_ledger_name|].
      intros _. apply renames_world_only, world_only_ret.
    + intros e. apply renames_world_only.
      destruct e; try apply world_only_raise.
      apply world_only_bind; [apply world_only_call|].
      intros; apply world_only_ret.
  - intros [|]; apply renames_world_only; [apply world_only_ret|].
    repeat (apply world_only_bind;
            [first [apply world_only_call|apply world_only_subprocess_run]
            |intros ?]).
    apply world_only_ret.
Qed.

Lemma renames_loop fuel : forall s r s',
  open_instance_ledger_loop fuel s = Some (r, s') ->
  heap s' = heap s /\ exists n, self s' = with_ledger_name n (self s).
Proof.
  induction fuel as [|fuel IH]; intros s r s'; cbn [open_instance_ledger_loop];
    destruct (instance_ledger_name (self s)) eqn:Hn;
    try (intros [= <- <-]; split; [reflexivity|];
         exists (instance_ledger_name (self s)); symmetry;
         apply with_ledger_name_id); try discriminate.
  destruct (open_instance_ledger_turn s) as [[v|e] s1] eqn:E;
    apply renames_turn in E as [E1 [n1 E2]].
  - intros H. apply IH in H as [H1 [n2 H2]]. split; [congruence|].
    exists n2. rewrite H2, E2. reflexivity.
  - intros [= <- <-]. eauto.
Qed.

(** What [open_instance_ledger] leaves of the engine. *)
Lemma open_instance_ledger_frame fuel s r s' :
  open_instance_ledger fuel s = Some (r, s') ->
  heap s' = heap s
  /\ same_directory (self s) (self s')
  /\ name_kept (self s) (self s')
  /\ (handle_on_name (self s) -> handle_on_name (self s'))
  /\ (is_Ok r = false -> instance_ledger (self s') = instance_ledger (self s))
  /\ (forall h, r = Ok h -> instance_ledger (self s') = Some h).
Proof.
  unfold open_instance_ledger, same_directory, name_kept, handle_on_name.
  destruct (instance_ledger (self s)) as [h|] eqn:Hh.
  { intros [= <- <-]. rewrite Hh.
    repeat split; auto; try discriminate. intros h' [= <-]. reflexivity. }
  destruct (open_instance_ledger_loop fuel s) as [[[[]|e] s1]|] eqn:E;
    [| |discriminate].
  - pose proof E as E'. apply renames_loop in E' as [E1 [n E2]].
    assert (Hkept : forall n0, instance_ledger_name (self s) = Some n0 ->
                               n = Some n0).
    { intros n0 Hn0. destruct fuel; cbn [open_instance_ledger_loop] in E;
        rewrite Hn0 in E; injection E as <-;
        rewrite <- (with_ledger_name_id (self s)), Hn0 in E2;
        apply (f_equal instance_ledger_name) in E2; cbn in E2; congruence. }
    rewrite E2. cbn [instance_ledger_name with_ledger_name].
    destruct n as [path|].
    + unfold bind at 1, call. destruct (perform _ _) as [[out|e] w1].
      * unfold bind, set_instance_ledger, get_self, put_self, ret.
        intros [= <- <-]. cbn. rewrite E2. cbn.
        split; [exact E1|]. split; [auto|]. split; [exact Hkept|].
        split; [intros _ h [= <-]; reflexivity|].
        split; [discriminate|]. intros h [= <-]. reflexivity.
      * intros [= <- <-]. cbn. rewrite E2. cbn.
        split; [exact E1|]. split; [auto|]. split; [exact Hkept|].
        split; [intros _ h Hh'; congruence|].
        split; [intros _; exact Hh|]. discriminate.
    + intros [= <- <-]. rewrite E2. cbn.
      split; [exact E1|]. split; [auto|]. split; [exact Hkept|].
      split; [intros _ h Hh'; congruence|].
      split; [intros _; exact Hh|]. discriminate.
  - intros [= <- <-]. pose proof E as E'.
    apply renames_loop in E' as [E1 [n E2]]. rewrite E2. cbn.
    split; [exact E1|]. split; [auto|].
    split.
    { intros n0 Hn0. destruct fuel; cbn [open_instance_ledger_loop] in E;
        rewrite Hn0 in E; discriminate. }
    split; [intros _ h Hh'; congruence|].
    split; [intros _; exact Hh|]. discriminate.
Qed.

Lemma closed_id s : instance_ledger (self s) = None -> closed s = s.
Proof.
  intros H. unfold closed. rewrite <- H, with_ledger_id. destruct s; reflexivity.
Qed.

Section Pulls.
Variable Decimal_of_str : string -> option Decimal.
Variable infer_tolerances : list bcdata.Posting -> gmap string Decimal.

Lemma load_data_frame src s r s' :
  load_data Decimal_of_str src s = (r, s') ->
  heap s `prefix_of` heap s'
  /\ instance_ledger_name (self s') = instance_ledger_name (self s)
  /\ instance_ledger (self s') = instance_ledger (self s)
  /\ calls (world s') = calls (world s)
  /\ HEAD (world s') = HEAD (world s)
  /\ fails (world s') = fails (world s)
  /\ (is_Ok r = false -> self s' = self s).
Proof.
  rewrite load_data_unfold.
  destruct (products_yml src) as [raw|e].
  2:{ intros [= <- <-]. repeat split; auto. }
  destruct raw as [| | | | |raws|];
    try (intros [= <- <-]; repeat split; auto).
  destruct (load_products Decimal_of_str raws ∅) as [prods|e].
  2:{ intros [= <- <-]. repeat split; auto. }
  destruct (errors src).
  2:{ intros [= <- <-]. repeat split; auto. }
  destruct (load_accounts _ _ _ _ s) as [[[acc raw]|e] s1] eqn:E;
    pose proof (load_accounts_frame _ _ _ _ _ _ _ E) as [Hself Hheap];
    pose proof (load_accounts_calls _ _ _ _ _ _ _ E) as (Hc & Hh & Hl & Hf);
    intros [= <- <-]; cbn; rewrite ?Hself; repeat split; auto;
    discriminate.
Qed.

Lemma apply_txn_frame txn s r s' :
  apply_txn infer_tolerances txn s = (r, s') -> self s' = self s.
Proof.
  unfold apply_txn. destruct (negb _); [intros [= <- <-]; reflexivity|].
  unfold bind at 1.
  destruct (git_transaction (append_entry txn) s) as [[[]|e] sc] eqn:E;
    apply commit_touches_world_only in E as [E1 E2].
  - intros H. apply apply_postings_frame in H as [_ H]. congruence.
  - intros [= <- <-]. exact E1.
Qed.

Lemma close_instance_ledger_closed s :
  close_instance_ledger s = (Ok tt, closed s).
Proof.
  unfold close_instance_ledger, bind, get_self, set_instance_ledger, put_self.
  destruct (instance_ledger (self s)) eqn:E; [reflexivity|].
  rewrite (closed_id _ E). reflexivity.
Qed.

(** [pull_changes] up to the reload, case by case. *)
Lemma pull_and_reload_unfold up s :
  pull_and_reload Decimal_of_str up s =
  if next_call_fails s
  then (Raise (UpdateFailed (pull_stderr up)),
        after_failed_call git_pull_call (closed s))
  else
    match load_data Decimal_of_str (reloaded up) (pulled up s) with
    | (Ok _, s2) => (Ok tt, s2)
    | (Raise (UpdateFailed msg), s2) => (Raise (UpdateFailed msg), s2)
    | (Raise _, s2) =>
        if next_call_fails s2
        then (Raise (CalledProcessError ["git"; "checkout"; "@{-1}"]),
              after_failed_call git_checkout s2)
        else (Raise (UpdateFailed "Failed to reload data"),
              set_world (w_tree (checked_out up)
                           (world (after_call git_checkout s2)))
                (after_call git_checkout s2))
    end.
Proof.
  unfold pull_and_reload. unfold bind at 1, get_self at 1.
  assert (Hclose :
    match instance_ledger (self s) with
    | Some _ => set_instance_ledger None
    | None => ret tt
    end s = (Ok tt, closed s)).
  { pose proof (close_instance_ledger_closed s) as H.
    unfold close_instance_ledger, bind at 1, get_self at 1 in H. exact H. }
  unfold bind at 1. rewrite Hclose.
  assert (Hnf : next_call_fails (closed s) = next_call_fails s) by reflexivity.
  unfold bind at 1, try_except at 1, bind at 1.
  destruct (next_call_fails s) eqn:Hf.
  - rewrite (subprocess_run_fail _ _ Hnf). reflexivity.
  - rewrite (subprocess_run_ok _ _ Hnf). unfold becomes at 1.
    fold git_pull_call. fold (pulled up s).
    unfold try_except.
    destruct (load_data Decimal_of_str (reloaded up) (pulled up s))
      as [[[]|e] s2]; [reflexivity|].
    destruct e; try reflexivity;
      unfold bind at 1;
      (destruct (next_call_fails s2) eqn:Hf2;
       [rewrite (subprocess_run_fail _ _ Hf2)
       |rewrite (subprocess_run_ok _ _ Hf2)]); reflexivity.
Qed.

Lemma pull_changes_frame up fuel s r s' :
  pull_changes Decimal_of_str up fuel s = Some (r, s') ->
  heap s `prefix_of` heap s'
  /\ name_kept (self s) (self s')
  /\ handle_on_name (self s')
  /\ (is_Ok r = false -> instance_ledger (self s') = None).
Proof.
  unfold pull_changes. rewrite pull_and_reload_unfold.
  assert (Hnone : forall x : State,
            instance_ledger (self x) = None -> handle_on_name (self x))
    by (intros x Hx h; rewrite Hx; discriminate).
  destruct (next_call_fails s) eqn:Hf.
  { intros [= <- <-]. split; [reflexivity|]. split; [intros n H; exact H|].
    split; [apply Hnone; reflexivity|intros _; reflexivity]. }
  destruct (load_data Decimal_of_str (reloaded up) (pulled up s))
    as [[[]|e0] s2] eqn:El;
    destruct (load_data_frame _ _ _ _ El)
      as (Hheap & Hname & Hhandle & Hcalls & Hhead & Hfails & Hself).
  - destruct (open_instance_ledger fuel s2) as [[[h|e1] s3]|] eqn:Eo;
      [| |discriminate]; intros [= <- <-];
      destruct (open_instance_ledger_frame _ _ _ _ Eo)
        as (Oheap & Odir & Oname & Oinv & Ohandle & _).
    + split; [rewrite Oheap; exact Hheap|].
      split; [intros n Hn; apply Oname; rewrite Hname; exact Hn|].
      split; [apply Oinv, Hnone; rewrite Hhandle; reflexivity|discriminate].
    + split; [rewrite Oheap; exact Hheap|].
      split; [intros n Hn; apply Oname; rewrite Hname; exact Hn|].
      assert (instance_ledger (self s3) = None)
        by (rewrite (Ohandle eq_refl), Hhandle; reflexivity).
      split; [apply Hnone; assumption|auto].
  - specialize (Hself eq_refl).
    assert (Hbase : forall (x : State),
              self x = self s2 -> heap x = heap s2 ->
              heap s `prefix_of` heap x
              /\ name_kept (self s) (self x)
              /\ handle_on_name (self x)
              /\ (false = false -> instance_ledger (self x) = None)).
    { intros x Hx Hhx. rewrite Hx, Hhx, Hself. cbn.
      split; [exact Hheap|]. split; [intros n Hn; exact Hn|].
      split; [intros h; discriminate|intros _; reflexivity]. }
    destruct e0; try destruct (next_call_fails s2); intros [= <- <-];
      apply Hbase; reflexivity.
Qed.

(** X17. When the pull is rejected, [pull_changes] raises [UpdateFailed]
    with the error output of git after that single call; the ledger
    handle, closed before the pull, stays closed, and the directory is the
    one of before. *)
Theorem pull_changes_rejected (up : Upstream) (fuel : nat) (s : State) :
  next_call_fails s = true ->
  pull_changes Decimal_of_str up fuel s
  = Some (Raise (UpdateFailed (pull_stderr up)),
          after_failed_call git_pull_call (closed s)).
Proof.
  intros H. unfold pull_changes. rewrite pull_and_reload_unfold, H.
  reflexivity.
Qed.


(** X19. Once the ledger has its name, [pull_changes] comes to an end
    whatever turns the allocator is given. When it returns, the calls were
    the pull and the reopening of the ledger under its name, the handle is
    on that name, and the directory is the one that [load_data] built from
    the merged revision. *)
Theorem pull_changes_named (up : Upstream) (fuel : nat) (s : State)
    (n : string) :
  instance_ledger_name (self s) = Some n ->
  exists r s',
    pull_changes Decimal_of_str up fuel s = Some (r, s')
    /\ (r = Ok tt ->
        instance_ledger (self s') = Some n
        /\ instance_ledger_name (self s') = Some n
        /\ calls (world s')
           = (calls (world s) ++ [git_pull_call; OpenA n])%list
        /\ HEAD (world s') = tree_HEAD (merged up)
        /\ exists s2,
             load_data Decimal_of_str (reloaded up) (pulled up s) = (Ok tt, s2)
             /\ heap s' = heap s2
             /\ same_directory (self s2) (self s')).
Proof.
  intros Hn. unfold pull_changes. rewrite pull_and_reload_unfold.
  destruct (next_call_fails s) eqn:Hf.
  { eexists _, _. split; [reflexivity|discriminate]. }
  assert (Hpc : calls (world (pulled up s))
                = (calls (world s) ++ [git_pull_call])%list)
    by (unfold pulled; cbn [world set_world w_tree calls];
        rewrite calls_after_call; reflexivity).
  destruct (load_data Decimal_of_str (reloaded up) (pulled up s))
    as [[[]|e0] s2] eqn:El;
    destruct (load_data_frame _ _ _ _ El)
      as (Hheap & Hname & Hhandle & Hcalls & Hhead & Hfails & Hself).
  - assert (Hn2 : instance_ledger_name (self s2) = Some n)
      by (rewrite Hname; exact Hn).
    assert (Hh2 : instance_ledger (self s2) = None)
      by (rewrite Hhandle; reflexivity).
    destruct (next_call_fails s2) eqn:Hf2.
    + rewrite (open_named_fails fuel s2 n Hh2 Hn2 Hf2).
      eexists _, _. split; [reflexivity|discriminate].
    + rewrite (open_named fuel s2 n Hh2 Hn2 Hf2).
      eexists _, _. split; [reflexivity|]. intros _.
      cbn [self set_self heap world].
      split; [reflexivity|]. split; [exact Hn2|].
      split; [rewrite calls_after_call, Hcalls, Hpc, <- app_assoc;
              reflexivity|].
      destruct (after_call_keeps (OpenA n) s2 eq_refl)
        as (K1 & _ & _ & _ & K5 & K6).
      split; [rewrite K1, Hhead; reflexivity|].
      exists s2. split; [reflexivity|]. split; [exact K6|].
      repeat split.
  - destruct e0; try destruct (next_call_fails s2);
      eexists _, _; (split; [reflexivity|discriminate]).
Qed.

(** X20. The invariants that the class states for the instance ledger
    hold along every run of [open_instance_ledger],
    [close_instance_ledger], [apply_txn], [load_data] and [pull_changes],
    whether they return or raise: the name of the ledger does not change
    once it is set, and an open handle is a handle on the file of that
    name. *)
Theorem instance_ledger_invariants (s s' : State) :
  rtc (engine_step Decimal_of_str infer_tolerances) s s' ->
  name_kept (self s) (self s')
  /\ (handle_on_name (self s) -> handle_on_name (self s')).
Proof.
  induction 1 as [s|s s1 s' Hstep _ [IHn IHh]].
  { split; [intros n H; exact H|auto]. }
  assert (Hone : name_kept (self s) (self s1)
                 /\ (handle_on_name (self s) -> handle_on_name (self s1))).
  { destruct Hstep as [fuel s r s1 H|s r s1 H|txn s r s1 H|src s r s1 H
                      |up fuel s r s1 H].
    - destruct (open_instance_ledger_frame _ _ _ _ H)
        as (_ & _ & Hk & Hh & _). auto.
    - rewrite close_instance_ledger_closed in H. injection H as <- <-.
      split; [intros n Hn; exact Hn|]. intros _ h. discriminate.
    - apply apply_txn_frame in H. rewrite H. split; [intros n Hn; exact Hn|auto].
    - destruct (load_data_frame _ _ _ _ H) as (_ & Hname & Hhandle & _).
      split; [intros n Hn; rewrite Hname; exact Hn|].
      intros Hh h. rewrite Hhandle, Hname. apply Hh.
    - destruct (pull_changes_frame _ _ _ _ _ H) as (_ & Hk & Hh & _). auto. }
  destruct Hone as [H1 H2].
  split; [intros n Hn; apply IHn, H1, Hn|auto].
Qed.

End Pulls.

Lemma pull_changes_rejected_witness :
  pull_changes no_parser example_upstream 0 (example_state (only 0))
  = Some (Raise (UpdateFailed "fatal: unable to access the remote"),
          after_failed_call git_pull_call (closed (example_state (only 0)))).
Proof.
  apply (pull_changes_rejected no_parser example_upstream 0
           (example_state (only 0))).
  reflexivity.
Defined.


Lemma pull_changes_named_witness :
  exists r s',
    pull_changes no_parser example_upstream 0 (example_state never)
    = Some (r, s')
    /\ (r = Ok tt ->
        instance_ledger (self s') = Some example_ledger
        /\ calls (world s') = [git_pull_call; OpenA example_ledger]).
Proof.
  destruct (pull_changes_named no_parser example_upstream 0
              (example_state never) example_ledger eq_refl)
    as (r & s' & H1 & H2).
  exists r, s'. split; [exact H1|]. intros Hr.
  destruct (H2 Hr) as (H3 & _ & H5 & _). split; [exact H3|exact H5].
Defined.

(** Closing the ledger, then applying a deposit with the ledger closed. *)
Lemma instance_ledger_invariants_witness :
  name_kept example_self
    (self (snd (apply_txn no_tolerances alice_deposit
                  (closed (example_state never)))))
  /\ (handle_on_name example_self ->
      handle_on_name
        (self (snd (apply_txn no_tolerances alice_deposit
                      (closed (example_state never)))))).
Proof.
  apply (instance_ledger_invariants no_parser no_tolerances
           (example_state never)).
  eapply rtc_l.
  - eapply (step_close _ _ _ (Ok tt)). reflexivity.
  - apply rtc_once.
    eapply (step_apply _ _ alice_deposit).
    apply surjective_pairing.
Defined.
